(** * pcs_detection/utils.h: point cloud annotation utilities

    A shallow embedding of the four inline functions of
    [pcs_detection/include/pcs_detection/utils.h]
    ([type2str], [applyMask], [cloudToImage], [imageToCloud]) together with
    the parts of OpenCV ([cv::Mat]) and PCL ([pcl::PointCloud],
    [pcl::PointXYZRGB]) they touch.

    Conventions of the embedding:
    - [int] and [uint32_t] values are integers of [Z]; the conversions
      between the two are written out ([int_of_uint32], [uint32_of_int]).
      The [int] arithmetic of the indices ([y * cols + x], [x * 3 + k]) is
      32-bit: [int_mul] and [int_add] give the two's complement result.
      Where that differs from the exact result the C++ program overflows
      a signed integer and has no defined behaviour.  The indices of the
      loops grow by one, so the first that leaves the range is [2 ^ 31]
      and wraps to [- 2 ^ 31]: the access fails, and a run that reaches an
      overflow returns no result.  A loop counter stays below its bound,
      an [int], and is incremented exactly.
    - [assert] is modelled as in a build without [NDEBUG]: a failed
      assertion ends the call with an error.  Reads and writes outside a
      vector or a matrix (undefined in C++, [CV_DbgAssert] in OpenCV) end the
      call with [OutOfBounds].
    - [uchar]/[uint8_t] is [Byte.byte]; integer promotion is [uchar_to_Z].
    - [float] and [double] are abstract types with the two implicit
      conversions between them; [IEEE] gives them as IEEE 754 values.
    - A [cv::Mat] has its scalars in a list.  [cv.Mat T] is a matrix read
      at one scalar type [T], as [at<T>] reads it; [cv.AnyMat] is a matrix
      with the depth it carries, which [cv::multiply] looks at. *)

From Stdlib Require Import ZArith Lia.
From Stdlib.Strings Require Import Byte.
From Stdlib Require Import Floats.SpecFloat.
From stdpp Require Import base list strings pretty.

Local Open Scope Z_scope.

(** ** Results of calls that can fail *)

Inductive error : Type :=
| DegenerateCloud      (* assert(cloud->width != 1 || cloud->height != 1) *)
| DimensionOverflow    (* assert(width < INT_MAX && height < INT_MAX) *)
| ShapeMismatch        (* assert(color.rows == position.rows), same for cols *)
| OutOfBounds          (* access outside a vector or a matrix *)
| StsUnmatchedSizes    (* cv::Exception of cv::multiply: sizes or channels differ *)
| StsBadArg.           (* cv::Exception of cv::multiply: depths differ *)

Inductive result (A : Type) : Type :=
| Ok (a : A)
| Err (e : error).
Arguments Ok {A} a.
Arguments Err {A} e.

Definition bind {A B : Type} (m : result A) (k : A -> result B) : result B :=
  match m with
  | Ok a => k a
  | Err e => Err e
  end.

Definition assert (cond : bool) (e : error) : result unit :=
  if cond then Ok tt else Err e.

Declare Scope result_scope.
Delimit Scope result_scope with result.
Notation "'let*' x ':=' m 'in' k" := (bind m (fun x => k))
  (at level 10, x name, m at level 100, k at level 200) : result_scope.
Notation "'check' c 'else' e 'in' k" := (bind (assert c e) (fun _ => k))
  (at level 10, c at level 100, e at level 0, k at level 200) : result_scope.
Local Open Scope result_scope.

(** [for (int i = lo; i < hi; i++) body], the body threading a state and
    possibly failing.  The bound is fixed while the loop runs. *)
Fixpoint for_from {St : Type} (i : Z) (count : nat)
    (body : Z -> St -> result St) (s : St) : result St :=
  match count with
  | O => Ok s
  | S count' => let* s' := body i s in for_from (i + 1) count' body s'
  end.

Definition for_range {St : Type} (lo hi : Z)
    (body : Z -> St -> result St) (s : St) : result St :=
  for_from lo (Z.to_nat (hi - lo)) body s.

(** ** OpenCV type codes (opencv2/core/hal/interface.h, cvdef.h) *)

Module CV.
Definition CV_CN_MAX : Z := 512.
Definition CV_CN_SHIFT : Z := 3.
Definition CV_DEPTH_MAX : Z := Z.shiftl 1 CV_CN_SHIFT.

Definition CV_8U : Z := 0.
Definition CV_8S : Z := 1.
Definition CV_16U : Z := 2.
Definition CV_16S : Z := 3.
Definition CV_32S : Z := 4.
Definition CV_32F : Z := 5.
Definition CV_64F : Z := 6.

Definition CV_MAT_DEPTH_MASK : Z := CV_DEPTH_MAX - 1.
Definition CV_MAT_DEPTH (flags : Z) : Z := Z.land flags CV_MAT_DEPTH_MASK.

Definition CV_MAT_CN_MASK : Z := Z.shiftl (CV_CN_MAX - 1) CV_CN_SHIFT.
Definition CV_MAT_CN (flags : Z) : Z :=
  Z.shiftr (Z.land flags CV_MAT_CN_MASK) CV_CN_SHIFT + 1.

Definition CV_MAKETYPE (depth cn : Z) : Z :=
  CV_MAT_DEPTH depth + Z.shiftl (cn - 1) CV_CN_SHIFT.

Definition CV_8UC3 : Z := CV_MAKETYPE CV_8U 3.
Definition CV_64FC1 : Z := CV_MAKETYPE CV_64F 1.
Definition CV_64FC3 : Z := CV_MAKETYPE CV_64F 3.
End CV.

(** ** type2str *)

(** [std::to_string(int)]: decimal digits, a leading minus sign for a
    negative number. *)
Definition to_string (n : Z) : string := pretty n.

(** The [switch (depth)] of [type2str]. *)
Definition depth2str (depth : Z) : string :=
  if depth =? CV.CV_8U then "8U"
  else if depth =? CV.CV_8S then "8S"
  else if depth =? CV.CV_16U then "16U"
  else if depth =? CV.CV_16S then "16S"
  else if depth =? CV.CV_32S then "32S"
  else if depth =? CV.CV_32F then "32F"
  else if depth =? CV.CV_64F then "64F"
  else "User".

Definition type2str (type : Z) : string :=
  let depth := CV.CV_MAT_DEPTH type in
  let chans := CV.CV_MAT_CN type in
  let r := depth2str depth in
  let r := r +:+ "C" in
  let r := r +:+ to_string chans in
  r.

(** ** Scalars *)

Definition INT_MAX : Z := 2 ^ 31 - 1.

(** [static_cast<int>(u)] for a [uint32_t] value. *)
Definition int_of_uint32 (u : Z) : Z :=
  if u <? 2 ^ 31 then u else u - 2 ^ 32.

(** Assignment of an [int] to a [uint32_t] field. *)
Definition uint32_of_int (i : Z) : Z := i mod 2 ^ 32.

(** An integer as a 32-bit [int]: its residue in [-2^31, 2^31). *)
Definition to_int (z : Z) : Z := (z + 2 ^ 31) mod 2 ^ 32 - 2 ^ 31.

(** [a * b] and [a + b] on two [int]s. *)
Definition int_mul (a b : Z) : Z := to_int (a * b).
Definition int_add (a b : Z) : Z := to_int (a + b).

Definition uchar : Type := byte.

(** Integer promotion of a [uchar]. *)
Definition uchar_to_Z (c : uchar) : Z := Z.of_N (Byte.to_N c).

(** The low eight bits of an integer as a [uchar]. *)
Definition uchar_of_Z (v : Z) : uchar :=
  default x00 (Byte.of_N (Z.to_N (v mod 256))).

(** [cv::saturate_cast<uchar>(int)]. *)
Definition saturate_uchar (v : Z) : uchar :=
  uchar_of_Z (if (0 <=? v) && (v <=? 255) then v else if 0 <? v then 255 else 0).

(** Product of two [CV_8U] scalars: [saturate_cast<uchar>(a * b)]. *)
Definition mul8u (a b : uchar) : uchar :=
  saturate_uchar (uchar_to_Z a * uchar_to_Z b).

(** [cv::saturate_cast] to an integer type of the range [lo .. hi]. *)
Definition saturate (lo hi v : Z) : Z :=
  if v <? lo then lo else if hi <? v then hi else v.

(** [float] and [double] with the implicit conversions between them. *)
Class FloatOps : Type := {
  float32 : Type;
  float64 : Type;
  to_double : float32 -> float64;
  to_float : float64 -> float32
}.

(** ** cv::Mat *)

Module cv.

(** A continuous two-dimensional matrix: [rows] by [cols] cells of
    [channels] scalars each, stored row after row in [data]. *)
Record Mat (T : Type) : Type := mkMat {
  rows : Z;
  cols : Z;
  channels : Z;
  data : list T
}.
Arguments mkMat {T} rows cols channels data.
Arguments rows {T} m.
Arguments cols {T} m.
Arguments channels {T} m.
Arguments data {T} m.

Record Vec3 (T : Type) : Type := mkVec3 { v0 : T; v1 : T; v2 : T }.
Arguments mkVec3 {T} v0 v1 v2.
Arguments v0 {T} v.
Arguments v1 {T} v.
Arguments v2 {T} v.

Definition Vec3b : Type := Vec3 uchar.

Record Point : Type := mkPoint { px : Z; py : Z }.

(** [cv::Mat(rows, cols, type)]: [type] fixes the channel count; the cells
    are allocated, not initialised: scalar [i] holds [junk i], whatever
    the allocator left there. *)
Definition create {T : Type} (rows cols type : Z) (junk : nat -> T) : Mat T :=
  mkMat rows cols (CV.CV_MAT_CN type)
        (junk <$> seq 0 (Z.to_nat (rows * cols * CV.CV_MAT_CN type))).

(** Position in [data] of scalar [i1 * width] of row [i0], for an access
    [at<_Tp>(i0, i1)] where [_Tp] has [width] channels; the range checks
    are those of [Mat::at]. *)
Definition offset {T : Type} (m : Mat T) (i0 i1 width : Z) : result nat :=
  check (0 <=? i0) && (i0 <? rows m) else OutOfBounds in
  check (0 <=? i1 * width) && (i1 * width <? cols m * channels m)
    else OutOfBounds in
  Ok (Z.to_nat (i0 * (cols m * channels m) + i1 * width)).

Definition load {T : Type} (m : Mat T) (i : nat) : result T :=
  match data m !! i with
  | Some v => Ok v
  | None => Err OutOfBounds
  end.

Definition store {T : Type} (m : Mat T) (i : nat) (v : T) : result (Mat T) :=
  check (i <? length (data m))%nat else OutOfBounds in
  Ok (mkMat (rows m) (cols m) (channels m) (<[i := v]> (data m))).

(** [m.at<T>(i0, i1)] read, for a scalar [T]. *)
Definition at_ {T : Type} (m : Mat T) (i0 i1 : Z) : result T :=
  let* i := offset m i0 i1 1 in
  load m i.

(** [m.at<T>(i0, i1) = v]. *)
Definition at_put {T : Type} (m : Mat T) (i0 i1 : Z) (v : T) : result (Mat T) :=
  let* i := offset m i0 i1 1 in
  store m i v.

(** [m.at<cv::Vec<T,3>>(pt)] read; [pt.y] is the row. *)
Definition at_Vec3 {T : Type} (m : Mat T) (pt : Point) : result (Vec3 T) :=
  let* i := offset m (py pt) (px pt) 3 in
  let* a := load m i in
  let* b := load m (i + 1)%nat in
  let* c := load m (i + 2)%nat in
  Ok (mkVec3 a b c).

(** [m.at<cv::Vec<T,3>>(pt) = v]. *)
Definition at_Vec3_put {T : Type} (m : Mat T) (pt : Point) (v : Vec3 T)
    : result (Mat T) :=
  let* i := offset m (py pt) (px pt) 3 in
  let* m := store m i (v0 v) in
  let* m := store m (i + 1)%nat (v1 v) in
  store m (i + 2)%nat (v2 v).

(** [a.mul(m)] assigned to a matrix, for two operands read at one scalar
    type: the per-element product [emul] of that type.  The operands must
    be of the same size and channel count; [cv::multiply] raises a
    [cv::Exception] otherwise.  (For a one-row or one-column matrix
    [cv::multiply] has a second reading, as a scalar; matrices are grids
    here and that reading is outside the model.)  [mul_any] below is the
    product of two matrices that carry their depth. *)
Definition mul {T : Type} (emul : T -> T -> T) (a m : Mat T) : result (Mat T) :=
  check (rows a =? rows m) && (cols a =? cols m) && (channels a =? channels m)
    else StsUnmatchedSizes in
  Ok (mkMat (rows a) (cols a) (channels a) (zip_with emul (data a) (data m))).

(** A matrix as OpenCV keeps it: its dimensions are [int]s that are not
    negative and it owns [rows * cols * channels] scalars. *)
Definition valid {T : Type} (m : Mat T) : Prop :=
  0 <= rows m <= INT_MAX /\ 0 <= cols m <= INT_MAX /\ 0 <= channels m /\
  Z.of_nat (length (data m)) = rows m * cols m * channels m.

(** *** Matrices that carry their depth

    A [cv::Mat] is not typed by its scalars: it keeps their type, the
    depth, in its [flags], and [cv::multiply] looks at it when it runs. *)

(** The seven depths of the table of [type2str], [CV_8U] to [CV_64F]. *)
Inductive depth : Type := D8U | D8S | D16U | D16S | D32S | D32F | D64F.

Definition depth_eq_dec (d1 d2 : depth) : {d1 = d2} + {d1 <> d2}.
Proof. decide equality. Defined.

(** The scalars of a depth: a byte, an integer of the range of the C type
    ([is_scalar]), or an IEEE 754 value of the format. *)
Definition scalar (d : depth) : Type :=
  match d with
  | D8U => uchar
  | D8S | D16U | D16S | D32S => Z
  | D32F | D64F => spec_float
  end.

Definition is_scalar (d : depth) : scalar d -> Prop :=
  match d with
  | D8U => fun _ => True
  | D8S => fun v => -128 <= v <= 127
  | D16U => fun v => 0 <= v <= 65535
  | D16S => fun v => -32768 <= v <= 32767
  | D32S => fun v => - 2 ^ 31 <= v <= INT_MAX
  | D32F => fun v => valid_binary 24 128 v = true
  | D64F => fun v => valid_binary 53 1024 v = true
  end.

Definition is_float (d : depth) : bool :=
  match d with
  | D32F | D64F => true
  | _ => false
  end.

(** The product of two scalars of one depth as [cv::multiply] documents
    it for a scale of 1: [saturate(src1 * src2)], the product of the two
    values cast with [saturate_cast] to the depth; no saturation at
    [CV_32S], where the product is the [int] product; the IEEE 754 product
    of the format at the two floating-point depths. *)
Definition multiply_scalar (d : depth) : scalar d -> scalar d -> scalar d :=
  match d with
  | D8U => mul8u
  | D8S => fun a b => saturate (-128) 127 (a * b)
  | D16U => fun a b => saturate 0 65535 (a * b)
  | D16S => fun a b => saturate (-32768) 32767 (a * b)
  | D32S => int_mul
  | D32F => SFmul 24 128
  | D64F => SFmul 53 1024
  end.

(** A matrix with its depth. *)
Record AnyMat : Type := mkAny {
  depth_of : depth;
  mat_of : Mat (scalar depth_of)
}.

(** [a.mul(m)] assigned to a matrix, for two matrices that carry their
    depth.  [cv::multiply] first compares the sizes and channel counts,
    then, no output type being given, the types: operands of the same
    size and channel count but of different depths raise [StsBadArg].
    Operands of one depth are multiplied scalar by scalar with the product
    of that depth. *)
Definition mul_any (a m : AnyMat) : result AnyMat :=
  check (rows (mat_of a) =? rows (mat_of m))
        && (cols (mat_of a) =? cols (mat_of m))
        && (channels (mat_of a) =? channels (mat_of m))
    else StsUnmatchedSizes in
  match depth_eq_dec (depth_of m) (depth_of a) with
  | left same =>
      let m' := eq_rect (depth_of m) (fun d => Mat (scalar d)) (mat_of m)
                        (depth_of a) same in
      let* product := mul (multiply_scalar (depth_of a)) (mat_of a) m' in
      Ok (mkAny (depth_of a) product)
  | right _ => Err StsBadArg
  end.

End cv.

(** ** pcl::PointCloud<pcl::PointXYZRGB> *)

Module pcl.

Record PCLHeader : Type := mkHeader {
  seq : Z;
  stamp : Z;
  frame_id : string
}.

(** [pcl::PCLHeader()]. *)
Definition PCLHeader_default : PCLHeader := mkHeader 0 0 "".

(** The point type.  Its colour is a union: the four bytes read as the
    fields [b], [g], [r], [a] (in this order in memory, little endian) are
    the same four bytes as the packed field [rgb]; [rgb] holds them as one
    32-bit pattern. *)
Record PointXYZRGB `{FloatOps} : Type := mkPointXYZRGB {
  x : float32;
  y : float32;
  z : float32;
  rgb : Z
}.

Definition b `{FloatOps} (p : PointXYZRGB) : uchar :=
  uchar_of_Z (Z.land (rgb p) 255).
Definition g `{FloatOps} (p : PointXYZRGB) : uchar :=
  uchar_of_Z (Z.land (Z.shiftr (rgb p) 8) 255).
Definition r `{FloatOps} (p : PointXYZRGB) : uchar :=
  uchar_of_Z (Z.land (Z.shiftr (rgb p) 16) 255).
Definition a `{FloatOps} (p : PointXYZRGB) : uchar :=
  uchar_of_Z (Z.land (Z.shiftr (rgb p) 24) 255).

Record PointCloud `{FloatOps} : Type := mkPointCloud {
  header : PCLHeader;
  points : list PointXYZRGB;
  width : Z;
  height : Z;
  is_dense : bool
}.

(** [new pcl::PointCloud<pcl::PointXYZRGB>()]. *)
Definition PointCloud_new `{FloatOps} : PointCloud :=
  {| header := PCLHeader_default; points := []; width := 0; height := 0;
     is_dense := true |}.

(** [cloud->points[i]] for an [int] index [i]. *)
Definition points_at `{FloatOps} (cloud : PointCloud) (i : Z) : result PointXYZRGB :=
  check (0 <=? i) else OutOfBounds in
  match points cloud !! Z.to_nat i with
  | Some p => Ok p
  | None => Err OutOfBounds
  end.

Definition push_back `{FloatOps} (cloud : PointCloud) (p : PointXYZRGB) : PointCloud :=
  {| header := header cloud; points := points cloud ++ [p];
     width := width cloud; height := height cloud;
     is_dense := is_dense cloud |}.

(** An organised cloud holds [width * height] points. *)
Definition valid `{FloatOps} (cloud : PointCloud) : Prop :=
  0 <= width cloud < 2 ^ 32 /\ 0 <= height cloud < 2 ^ 32 /\
  Z.of_nat (length (points cloud)) = width cloud * height cloud.

End pcl.

(** ** applyMask *)

(** [masked_image = input_image.mul(mask); return true;] with the output
    parameter returned next to the flag.  [emul] is the product of two
    scalars at the depth of the matrices. *)
Definition applyMask {T : Type} (emul : T -> T -> T)
    (input_image mask : cv.Mat T) : result (bool * cv.Mat T) :=
  let* masked_image := cv.mul emul input_image mask in
  Ok (true, masked_image).

(** The same two statements on matrices that carry their depth, as the
    [cv::Mat] arguments of [applyMask] do: the product is the one of the
    common depth, and [cv::multiply] raises for two depths. *)
Definition applyMask_any (input_image mask : cv.AnyMat)
    : result (bool * cv.AnyMat) :=
  let* masked_image := cv.mul_any input_image mask in
  Ok (true, masked_image).

(** ** cloudToImage and imageToCloud *)

Section Conversions.

Context `{FloatOps}.

(** What the two freshly allocated matrices hold before they are
    written. *)
Variable junk64 : nat -> float64.
Variable junk8 : nat -> uchar.

(** The body of the two loops of [cloudToImage]; [cols] is
    [color_image.cols].  The six reads of [cloud->points] use the same
    index, [p] is the point they read. *)
Definition cloudToImage_body (cloud : pcl.PointCloud) (cols y x : Z)
    (images : cv.Mat float64 * cv.Mat uchar)
    : result (cv.Mat float64 * cv.Mat uchar) :=
  let position_image := images.1 in
  let color_image := images.2 in
  let* p := pcl.points_at cloud (int_add (int_mul y cols) x) in
  let* position_image :=
    cv.at_put position_image y (int_add (int_mul x 3) 0) (to_double (pcl.x p)) in
  let* position_image :=
    cv.at_put position_image y (int_add (int_mul x 3) 1) (to_double (pcl.y p)) in
  let* position_image :=
    cv.at_put position_image y (int_add (int_mul x 3) 2) (to_double (pcl.z p)) in
  let color : cv.Vec3b := cv.mkVec3 (pcl.b p) (pcl.g p) (pcl.r p) in
  let* color_image := cv.at_Vec3_put color_image (cv.mkPoint x y) color in
  Ok (position_image, color_image).

(** The output parameters [position_image] and [color_image] are
    returned as a pair. *)
Definition cloudToImage (cloud : pcl.PointCloud)
    : result (cv.Mat float64 * cv.Mat uchar) :=
  check negb (pcl.width cloud =? 1) || negb (pcl.height cloud =? 1)
    else DegenerateCloud in
  check (pcl.width cloud <? INT_MAX) && (pcl.height cloud <? INT_MAX)
    else DimensionOverflow in
  let position_image :=
    cv.create (int_of_uint32 (pcl.height cloud))
              (int_of_uint32 (pcl.width cloud)) CV.CV_64FC3 junk64 in
  let color_image :=
    cv.create (int_of_uint32 (pcl.height cloud))
              (int_of_uint32 (pcl.width cloud)) CV.CV_8UC3 junk8 in
  for_range 0 (cv.rows color_image) (fun y images =>
    for_range 0 (cv.cols color_image) (fun x images =>
      cloudToImage_body cloud (cv.cols color_image) y x images) images)
    (position_image, color_image).

(** [int32_t rgb = (r << 16) | (g << 8) | b] on promoted bytes. *)
Definition pack_rgb (r g b : uchar) : Z :=
  Z.lor (Z.lor (Z.shiftl (uchar_to_Z r) 16) (Z.shiftl (uchar_to_Z g) 8))
        (uchar_to_Z b).

(** The body of the two loops of [imageToCloud].  Every field of
    [point] is assigned before it is pushed. *)
Definition imageToCloud_body (color_image : cv.Mat uchar)
    (position_image : cv.Mat float64) (y x : Z) (cloud : pcl.PointCloud)
    : result pcl.PointCloud :=
  let* px := cv.at_ position_image y (int_add (int_mul x 3) 0) in
  let* py := cv.at_ position_image y (int_add (int_mul x 3) 1) in
  let* pz := cv.at_ position_image y (int_add (int_mul x 3) 2) in
  let* color := cv.at_Vec3 color_image (cv.mkPoint x y) in
  let r := cv.v2 color in
  let g := cv.v1 color in
  let b := cv.v0 color in
  let rgb := pack_rgb r g b in
  let point :=
    {| pcl.x := to_float px; pcl.y := to_float py; pcl.z := to_float pz;
       pcl.rgb := rgb |} in
  Ok (pcl.push_back cloud point).

Definition imageToCloud (color_image : cv.Mat uchar)
    (position_image : cv.Mat float64) (header : pcl.PCLHeader)
    : result pcl.PointCloud :=
  check (cv.rows color_image =? cv.rows position_image) else ShapeMismatch in
  check (cv.cols color_image =? cv.cols position_image) else ShapeMismatch in
  let cloud := pcl.PointCloud_new in
  let cloud :=
    {| pcl.header := header; pcl.points := pcl.points cloud;
       pcl.width := pcl.width cloud; pcl.height := pcl.height cloud;
       pcl.is_dense := pcl.is_dense cloud |} in
  let* cloud :=
    for_range 0 (cv.rows color_image) (fun y cloud =>
      for_range 0 (cv.cols color_image) (fun x cloud =>
        imageToCloud_body color_image position_image y x cloud) cloud)
      cloud in
  Ok {| pcl.header := pcl.header cloud; pcl.points := pcl.points cloud;
        pcl.width := uint32_of_int (cv.cols color_image);
        pcl.height := uint32_of_int (cv.rows color_image);
        pcl.is_dense := false |}.

(** The header parameter left to its default, [pcl::PCLHeader()]. *)
Definition imageToCloud_default (color_image : cv.Mat uchar)
    (position_image : cv.Mat float64) : result pcl.PointCloud :=
  imageToCloud color_image position_image pcl.PCLHeader_default.

End Conversions.

(** * Vocabulary of the properties *)

(** The depth table as the documentation words it: each of the seven depth
    tags has its label, every other tag is labelled "User". *)
Inductive depth_label : Z -> string -> Prop :=
| label_8U : depth_label CV.CV_8U "8U"
| label_8S : depth_label CV.CV_8S "8S"
| label_16U : depth_label CV.CV_16U "16U"
| label_16S : depth_label CV.CV_16S "16S"
| label_32S : depth_label CV.CV_32S "32S"
| label_32F : depth_label CV.CV_32F "32F"
| label_64F : depth_label CV.CV_64F "64F"
| label_User (d : Z) :
    d ∉ [CV.CV_8U; CV.CV_8S; CV.CV_16U; CV.CV_16S; CV.CV_32S; CV.CV_32F;
         CV.CV_64F] ->
    depth_label d "User".

(** The scalars 1 and 0 of a depth, of which a mask of ones and a mask of
    zeros are made. *)
Definition one (d : cv.depth) : cv.scalar d :=
  match d return cv.scalar d with
  | cv.D8U => x01
  | cv.D8S => 1
  | cv.D16U => 1
  | cv.D16S => 1
  | cv.D32S => 1
  | cv.D32F => S754_finite false 8388608 (-23)
  | cv.D64F => S754_finite false 4503599627370496 (-52)
  end.

Definition zero (d : cv.depth) : cv.scalar d :=
  match d return cv.scalar d with
  | cv.D8U => x00
  | cv.D8S => 0
  | cv.D16U => 0
  | cv.D16S => 0
  | cv.D32S => 0
  | cv.D32F => S754_zero false
  | cv.D64F => S754_zero false
  end.

(** What a mask of zeros is said to leave of a floating-point scalar: a
    zero with the sign of the scalar where it is finite, NaN where it is
    infinite or NaN. *)
Definition float_masked_by_zero (v : spec_float) : spec_float :=
  match v with
  | S754_zero s => S754_zero s
  | S754_finite s _ _ => S754_zero s
  | S754_infinity _ => S754_nan
  | S754_nan => S754_nan
  end.

(** The same for a scalar of any depth: zero at the integer depths. *)
Definition masked_by_zero (d : cv.depth) : cv.scalar d -> cv.scalar d :=
  match d return cv.scalar d -> cv.scalar d with
  | cv.D8U => fun _ => x00
  | cv.D8S => fun _ => 0
  | cv.D16U => fun _ => 0
  | cv.D16S => fun _ => 0
  | cv.D32S => fun _ => 0
  | cv.D32F => float_masked_by_zero
  | cv.D64F => float_masked_by_zero
  end.

(** A three-channel matrix of [h] rows and [w] columns. *)
Definition shaped {T : Type} (m : cv.Mat T) (h w : Z) : Prop :=
  cv.rows m = h /\ cv.cols m = w /\ cv.channels m = 3 /\
  Z.of_nat (length (cv.data m)) = h * w * 3.

Section Vocabulary.

Context `{FloatOps}.

(** Cells [0 .. k) of both matrices, in row-major order, hold the
    position and the colour (as b, g, r) of the points [0 .. k). *)
Definition filled (cloud : pcl.PointCloud) (h w k : Z)
    (images : cv.Mat float64 * cv.Mat uchar) : Prop :=
  shaped images.1 h w /\ shaped images.2 h w /\
  forall c p, 0 <= c < k -> pcl.points cloud !! Z.to_nat c = Some p ->
    cv.data images.1 !! Z.to_nat (c * 3 + 0) = Some (to_double (pcl.x p)) /\
    cv.data images.1 !! Z.to_nat (c * 3 + 1) = Some (to_double (pcl.y p)) /\
    cv.data images.1 !! Z.to_nat (c * 3 + 2) = Some (to_double (pcl.z p)) /\
    cv.data images.2 !! Z.to_nat (c * 3 + 0) = Some (pcl.b p) /\
    cv.data images.2 !! Z.to_nat (c * 3 + 1) = Some (pcl.g p) /\
    cv.data images.2 !! Z.to_nat (c * 3 + 2) = Some (pcl.r p).

(** The point [imageToCloud] makes of cell [c] of the two matrices. *)
Definition pixel_point (color_image : cv.Mat uchar)
    (position_image : cv.Mat float64) (c : Z) (p : pcl.PointXYZRGB) : Prop :=
  exists (px py pz : float64) (b g r : uchar),
    cv.data position_image !! Z.to_nat (c * 3 + 0) = Some px /\
    cv.data position_image !! Z.to_nat (c * 3 + 1) = Some py /\
    cv.data position_image !! Z.to_nat (c * 3 + 2) = Some pz /\
    cv.data color_image !! Z.to_nat (c * 3 + 0) = Some b /\
    cv.data color_image !! Z.to_nat (c * 3 + 1) = Some g /\
    cv.data color_image !! Z.to_nat (c * 3 + 2) = Some r /\
    p = {| pcl.x := to_float px; pcl.y := to_float py; pcl.z := to_float pz;
           pcl.rgb := pack_rgb r g b |}.

(** The cloud holds the points of cells [0 .. k), in row-major order,
    under the header it was given. *)
Definition built (color_image : cv.Mat uchar) (position_image : cv.Mat float64)
    (header : pcl.PCLHeader) (k : Z) (cloud : pcl.PointCloud) : Prop :=
  pcl.header cloud = header /\
  Z.of_nat (length (pcl.points cloud)) = k /\
  forall c, 0 <= c < k ->
    exists p, pcl.points cloud !! Z.to_nat c = Some p /\
              pixel_point color_image position_image c p.

End Vocabulary.

(** ** A model of the two floating-point types *)

(** Values of [float] and [double] as IEEE 754 values: a [double] is any
    [spec_float], a [float] is one that is a binary32 ([prec = 24],
    [emax = 128]).  Widening keeps the value; narrowing keeps a value that
    is a binary32 and rounds any other to nearest even. *)
Module IEEE.

Definition is_binary32 (f : spec_float) : bool := valid_binary 24 128 f.

Definition binary32 : Type := { f : spec_float | is_binary32 f = true }.

Definition round32 (f : spec_float) : spec_float :=
  match f with
  | S754_finite s m e => binary_normalize 24 128 (cond_Zopp s (Zpos m)) e s
  | _ => f
  end.

Definition widen (f : binary32) : spec_float := proj1_sig f.

Definition narrow (f : spec_float) : binary32 :=
  match Sumbool.sumbool_of_bool (is_binary32 f) with
  | left Hf => exist _ f Hf
  | right _ =>
      match Sumbool.sumbool_of_bool (is_binary32 (round32 f)) with
      | left Hr => exist _ (round32 f) Hr
      | right _ => exist _ S754_nan eq_refl
      end
  end.

Definition zero32 : binary32 := exist _ (S754_zero false) eq_refl.
Definition one32 : binary32 := exist _ (S754_finite false 8388608 (-23)) eq_refl.
Definition nan32 : binary32 := exist _ S754_nan eq_refl.

End IEEE.

#[export] Instance IEEE_floats : FloatOps := {|
  float32 := IEEE.binary32;
  float64 := spec_float;
  to_double := IEEE.widen;
  to_float := IEEE.narrow
|}.

(** ** Sample inputs *)

Module Samples.

Definition rgba (r g b a : Z) : Z :=
  Z.lor (Z.lor (Z.lor (Z.shiftl a 24) (Z.shiftl r 16)) (Z.shiftl g 8)) b.

Definition point (x y z : IEEE.binary32) (r g b : Z) : pcl.PointXYZRGB :=
  {| pcl.x := x; pcl.y := y; pcl.z := z; pcl.rgb := rgba r g b 255 |}.

Definition header : pcl.PCLHeader := pcl.mkHeader 7 1570000000 "camera".

(** Two rows of two points. *)
Definition cloud2x2 : pcl.PointCloud :=
  {| pcl.header := header;
     pcl.points := [ point IEEE.zero32 IEEE.zero32 IEEE.zero32 1 2 3;
                     point IEEE.one32 IEEE.zero32 IEEE.zero32 10 20 30;
                     point IEEE.zero32 IEEE.one32 IEEE.zero32 7 8 9;
                     point IEEE.one32 IEEE.one32 IEEE.nan32 10 11 12 ];
     pcl.width := 2; pcl.height := 2; pcl.is_dense := false |}.

(** An unorganised cloud of three points: one row. *)
Definition cloud3x1 : pcl.PointCloud :=
  {| pcl.header := header;
     pcl.points := [ point IEEE.zero32 IEEE.zero32 IEEE.zero32 1 2 3;
                     point IEEE.one32 IEEE.zero32 IEEE.zero32 10 20 30;
                     point IEEE.zero32 IEEE.one32 IEEE.zero32 7 8 9 ];
     pcl.width := 3; pcl.height := 1; pcl.is_dense := true |}.

(** One column of three points: width 1, height 3. *)
Definition cloud1x3 : pcl.PointCloud :=
  {| pcl.header := header;
     pcl.points := [ point IEEE.zero32 IEEE.zero32 IEEE.zero32 1 2 3;
                     point IEEE.zero32 IEEE.one32 IEEE.zero32 10 20 30;
                     point IEEE.zero32 IEEE.one32 IEEE.one32 7 8 9 ];
     pcl.width := 1; pcl.height := 3; pcl.is_dense := true |}.

(** A single point. *)
Definition cloud1x1 : pcl.PointCloud :=
  {| pcl.header := header;
     pcl.points := [ point IEEE.one32 IEEE.zero32 IEEE.zero32 10 20 30 ];
     pcl.width := 1; pcl.height := 1; pcl.is_dense := true |}.

Definition color10x10 : cv.Mat uchar := cv.mkMat 10 10 3 (replicate 300 x2a).
Definition position10x9 : cv.Mat (@float64 IEEE_floats) :=
  cv.mkMat 10 9 3 (replicate 270 (S754_zero false)).

Definition gray2x3 : cv.Mat uchar := cv.mkMat 2 3 1 [x01; x02; x03; x04; x05; xc8].
Definition ones2x3 : cv.Mat uchar := cv.mkMat 2 3 1 (replicate 6 x01).
Definition zeros2x3 : cv.Mat uchar := cv.mkMat 2 3 1 (replicate 6 x00).
Definition ones3x2 : cv.Mat uchar := cv.mkMat 3 2 1 (replicate 6 x01).
Definition twos2x3 : cv.Mat uchar := cv.mkMat 2 3 1 (replicate 6 x02).

Definition color2x2 : cv.Mat uchar :=
  cv.mkMat 2 2 3 [x03; x02; x01; x1e; x14; x0a; x09; x08; x07; x0c; x0b; x0a].
Definition position2x2 : cv.Mat (@float64 IEEE_floats) :=
  cv.mkMat 2 2 3 (replicate 12 (S754_zero false)).

(** What two fresh matrices hold. *)
Definition junk64 : nat -> @float64 IEEE_floats := fun _ => S754_nan.
Definition junk8 : nat -> uchar := fun i => uchar_of_Z (Z.of_nat i).

(** The points of [cloud2x2] with alpha 0 instead of 255, under the
    default header and with the dense flag set. *)
Definition cloud2x2_plain : pcl.PointCloud :=
  {| pcl.header := pcl.PCLHeader_default;
     pcl.points :=
       [ {| pcl.x := IEEE.zero32; pcl.y := IEEE.zero32; pcl.z := IEEE.zero32;
            pcl.rgb := rgba 1 2 3 0 |};
         {| pcl.x := IEEE.one32; pcl.y := IEEE.zero32; pcl.z := IEEE.zero32;
            pcl.rgb := rgba 10 20 30 0 |};
         {| pcl.x := IEEE.zero32; pcl.y := IEEE.one32; pcl.z := IEEE.zero32;
            pcl.rgb := rgba 7 8 9 0 |};
         {| pcl.x := IEEE.one32; pcl.y := IEEE.one32; pcl.z := IEEE.nan32;
            pcl.rgb := rgba 10 11 12 0 |} ];
     pcl.width := 2; pcl.height := 2; pcl.is_dense := true |}.

(** Width 2 and height 2, but three points only. *)
Definition cloud2x2_short : pcl.PointCloud :=
  {| pcl.header := header;
     pcl.points := [ point IEEE.zero32 IEEE.zero32 IEEE.zero32 1 2 3;
                     point IEEE.one32 IEEE.zero32 IEEE.zero32 10 20 30;
                     point IEEE.zero32 IEEE.one32 IEEE.zero32 7 8 9 ];
     pcl.width := 2; pcl.height := 2; pcl.is_dense := false |}.

(** [cv::Mat()]: no rows, no columns. *)
Definition empty8 : cv.Mat uchar := cv.mkMat 0 0 1 [].
Definition empty64 : cv.Mat (@float64 IEEE_floats) := cv.mkMat 0 0 1 [].

(** A single pixel. *)
Definition color1x1 : cv.Mat uchar := cv.mkMat 1 1 3 [x1e; x14; x0a].
Definition position1x1 : cv.Mat (@float64 IEEE_floats) :=
  cv.mkMat 1 1 3 (replicate 3 (S754_zero false)).

(** A depth image: one channel of doubles. *)
Definition depth2x2 : cv.Mat (@float64 IEEE_floats) :=
  cv.mkMat 2 2 1 (replicate 4 (S754_zero false)).

(** Doubles under a mask: 1.5, -1.5, an infinity and a NaN. *)
Definition doubles2x2 : cv.Mat (cv.scalar cv.D64F) :=
  cv.mkMat 2 2 1 [ S754_finite false 6755399441055744 (-52);
                   S754_finite true 6755399441055744 (-52);
                   S754_infinity false; S754_nan ].
Definition ones64_2x2 : cv.Mat (cv.scalar cv.D64F) :=
  cv.mkMat 2 2 1 (replicate 4 (one cv.D64F)).
Definition zeros64_2x2 : cv.Mat (cv.scalar cv.D64F) :=
  cv.mkMat 2 2 1 (replicate 4 (zero cv.D64F)).

(** 65536 rows of 65536 points: [2 ^ 32] points. *)
Definition cloud65536 : pcl.PointCloud :=
  {| pcl.header := Samples.header;
     pcl.points :=
       replicate (Z.to_nat (65536 * 65536))
                 (Samples.point IEEE.one32 IEEE.zero32 IEEE.zero32 10 20 30);
     pcl.width := 65536; pcl.height := 65536; pcl.is_dense := true |}.

(** One row of 715827883 pixels, of which the last scalar has the index
    [2 ^ 31 + 2]. *)
Definition color_wide : cv.Mat uchar :=
  cv.mkMat 1 715827883 3 (replicate (Z.to_nat (1 * 715827883 * 3)) x00).
Definition position_wide : cv.Mat (@float64 IEEE_floats) :=
  cv.mkMat 1 715827883 3
    (replicate (Z.to_nat (1 * 715827883 * 3)) (S754_zero false)).

(** A mask of doubles of the size of [gray2x3]. *)
Definition ones64_2x3 : cv.Mat (cv.scalar cv.D64F) :=
  cv.mkMat 2 3 1 (replicate 6 (one cv.D64F)).

End Samples.

(** * Properties *)

(** Validity of a concrete matrix or cloud, by evaluation. *)
Ltac solve_valid :=
  unfold cv.valid, pcl.valid, INT_MAX; cbn;
  rewrite ?length_replicate; lia.

(** ** type2str *)

Lemma CV_MAT_DEPTH_mod (type : Z) : CV.CV_MAT_DEPTH type = type mod 8.
Proof.
  unfold CV.CV_MAT_DEPTH, CV.CV_MAT_DEPTH_MASK, CV.CV_DEPTH_MAX, CV.CV_CN_SHIFT.
  change (Z.shiftl 1 3 - 1) with (Z.ones 3).
  rewrite Z.land_ones by lia. reflexivity.
Qed.

Lemma CV_MAT_CN_mod (type : Z) : CV.CV_MAT_CN type = (type / 8) mod 512 + 1.
Proof.
  unfold CV.CV_MAT_CN, CV.CV_MAT_CN_MASK, CV.CV_CN_MAX, CV.CV_CN_SHIFT.
  rewrite Z.shiftr_land.
  change (Z.shiftr (Z.shiftl (512 - 1) 3) 3) with (Z.ones 9).
  rewrite Z.land_ones by lia.
  rewrite Z.shiftr_div_pow2 by lia. reflexivity.
Qed.

Lemma depth2str_label (d : Z) : depth_label d (depth2str d).
Proof.
  unfold depth2str.
  repeat match goal with
         | |- context [?a =? ?c] =>
             destruct (Z.eqb_spec a c); [subst d; constructor |]
         end.
  apply label_User.
  rewrite !elem_of_cons, elem_of_nil. tauto.
Qed.

Lemma depth_label_functional (d : Z) (s1 s2 : string) :
  depth_label d s1 -> depth_label d s2 -> s1 = s2.
Proof.
  intros H1 H2.
  destruct H1; inversion H2; subst; try reflexivity;
    match goal with
    | Hn : _ ∉ _ |- _ => exfalso; apply Hn; rewrite !elem_of_cons; tauto
    end.
Qed.

Lemma CV_MAKETYPE_depth (depth cn : Z) :
  0 <= depth < 8 -> CV.CV_MAT_DEPTH (CV.CV_MAKETYPE depth cn) = depth.
Proof.
  intros Hd. rewrite CV_MAT_DEPTH_mod. unfold CV.CV_MAKETYPE.
  rewrite CV_MAT_DEPTH_mod, Z.shiftl_mul_pow2 by (unfold CV.CV_CN_SHIFT; lia).
  unfold CV.CV_CN_SHIFT. change (2 ^ 3) with 8.
  rewrite Z.mod_add by lia. rewrite Z.mod_mod by lia. apply Z.mod_small; lia.
Qed.

Lemma CV_MAKETYPE_cn (depth cn : Z) :
  0 <= depth < 8 -> 1 <= cn <= 512 ->
  CV.CV_MAT_CN (CV.CV_MAKETYPE depth cn) = cn.
Proof.
  intros Hd Hc. rewrite CV_MAT_CN_mod. unfold CV.CV_MAKETYPE.
  rewrite CV_MAT_DEPTH_mod, Z.shiftl_mul_pow2 by (unfold CV.CV_CN_SHIFT; lia).
  unfold CV.CV_CN_SHIFT. change (2 ^ 3) with 8.
  rewrite (Z.mod_small depth) by lia.
  rewrite Z.div_add by lia. rewrite (Z.div_small depth) by lia.
  rewrite Z.add_0_l, Z.mod_small by lia. lia.
Qed.

Lemma string_app_assoc (s1 s2 s3 : string) :
  (s1 +:+ s2) +:+ s3 = s1 +:+ (s2 +:+ s3).
Proof.
  induction s1 as [| c s1 IH]; [reflexivity |].
  change (String c ((s1 +:+ s2) +:+ s3) = String c (s1 +:+ (s2 +:+ s3))).
  by rewrite IH.
Qed.

(** C9. For every format code [type2str] returns the label of the depth
    tag of the code (the seven-entry table, "User" for any other tag), then
    "C", then the channel count in decimal; it returns a string for every
    code.  The 8-bit unsigned code with three channels gives "8UC3", the
    64-bit float code with one channel gives "64FC1". *)
Theorem type2str_table :
  (forall type : Z,
     exists tag : string,
       depth_label (CV.CV_MAT_DEPTH type) tag /\
       type2str type = tag +:+ "C" +:+ to_string (CV.CV_MAT_CN type)) /\
  type2str (CV.CV_MAKETYPE CV.CV_8U 3) = "8UC3" /\
  type2str (CV.CV_MAKETYPE CV.CV_64F 1) = "64FC1" /\
  type2str (CV.CV_MAKETYPE 7 1) = "UserC1".
Proof.
  split; [| repeat split; reflexivity].
  intros type. exists (depth2str (CV.CV_MAT_DEPTH type)).
  split; [apply depth2str_label |].
  unfold type2str. cbn zeta. apply string_app_assoc.
Qed.

(** X1. Codes built from a depth tag and a channel count are labelled by
    that tag and that count. *)
Lemma type2str_MAKETYPE (depth cn : Z) :
  0 <= depth < 8 -> 1 <= cn <= 512 ->
  type2str (CV.CV_MAKETYPE depth cn) = depth2str depth +:+ "C" +:+ to_string cn.
Proof.
  intros Hd Hc. unfold type2str. cbn zeta.
  rewrite CV_MAKETYPE_depth, CV_MAKETYPE_cn by assumption.
  apply string_app_assoc.
Qed.

(** ** Bytes and the packed colour *)

Lemma uchar_to_Z_range (c : uchar) : 0 <= uchar_to_Z c < 256.
Proof.
  unfold uchar_to_Z. pose proof (Byte.to_N_bounded c). lia.
Qed.

Lemma uchar_of_to_Z (c : uchar) : uchar_of_Z (uchar_to_Z c) = c.
Proof.
  unfold uchar_of_Z. pose proof (uchar_to_Z_range c) as Hc.
  rewrite Z.mod_small by lia. unfold uchar_to_Z.
  rewrite N2Z.id, Byte.of_to_N. reflexivity.
Qed.

Lemma uchar_to_of_Z (v : Z) : 0 <= v < 256 -> uchar_to_Z (uchar_of_Z v) = v.
Proof.
  intros Hv. unfold uchar_of_Z, uchar_to_Z. rewrite Z.mod_small by lia.
  destruct (Byte.of_N (Z.to_N v)) as [c |] eqn:Hof.
  - apply Byte.to_of_N in Hof. simpl. lia.
  - apply Byte.of_N_None_iff in Hof. lia.
Qed.

Lemma uchar_testbit_high (c : uchar) (n : Z) :
  8 <= n -> Z.testbit (uchar_to_Z c) n = false.
Proof.
  intros Hn. pose proof (uchar_to_Z_range c) as Hc.
  rewrite <- (Z.mod_small (uchar_to_Z c) (2 ^ 8)) by (change (2 ^ 8) with 256; lia).
  apply Z.mod_pow2_bits_high. lia.
Qed.

Lemma testbit_255 (n : Z) : 0 <= n -> Z.testbit 255 n = (n <? 8).
Proof.
  intros Hn. change 255 with (Z.ones 8).
  rewrite Z.testbit_ones_nonneg by lia. reflexivity.
Qed.

(** Bit [n] of the packed colour, by the byte it falls in. *)
Lemma pack_rgb_testbit (r g b : uchar) (n : Z) :
  0 <= n ->
  Z.testbit (pack_rgb r g b) n =
    if n <? 8 then Z.testbit (uchar_to_Z b) n
    else if n <? 16 then Z.testbit (uchar_to_Z g) (n - 8)
    else if n <? 24 then Z.testbit (uchar_to_Z r) (n - 16)
    else false.
Proof.
  intros Hn. unfold pack_rgb.
  rewrite !Z.lor_spec, !Z.shiftl_spec by lia.
  destruct (Z.ltb_spec n 8); [| destruct (Z.ltb_spec n 16);
    [| destruct (Z.ltb_spec n 24)]].
  - rewrite (Z.testbit_neg_r _ (n - 16)), (Z.testbit_neg_r _ (n - 8)) by lia.
    reflexivity.
  - rewrite (Z.testbit_neg_r _ (n - 16)) by lia.
    rewrite (uchar_testbit_high b) by lia.
    by rewrite orb_false_r.
  - rewrite (uchar_testbit_high g), (uchar_testbit_high b) by lia.
    by rewrite !orb_false_r.
  - by rewrite !uchar_testbit_high by lia.
Qed.

Lemma pack_rgb_byte (r g b : uchar) (k : Z) (c : uchar) :
  0 <= k ->
  (forall n, 0 <= n < 8 ->
     Z.testbit (pack_rgb r g b) (n + k) = Z.testbit (uchar_to_Z c) n) ->
  Z.land (Z.shiftr (pack_rgb r g b) k) 255 = uchar_to_Z c.
Proof.
  intros Hk Hbits. apply Z.bits_inj'. intros n Hn.
  rewrite Z.land_spec, Z.shiftr_spec, testbit_255 by lia.
  destruct (Z.ltb_spec n 8).
  - rewrite Hbits by lia. apply andb_true_r.
  - rewrite uchar_testbit_high by lia. apply andb_false_r.
Qed.

Lemma pack_rgb_b (r g b : uchar) :
  Z.land (pack_rgb r g b) 255 = uchar_to_Z b.
Proof.
  rewrite <- (Z.shiftr_0_r (pack_rgb r g b)).
  apply pack_rgb_byte; [lia |]. intros n Hn.
  rewrite pack_rgb_testbit by lia.
  destruct (Z.ltb_spec (n + 0) 8); [| lia]. f_equal; lia.
Qed.

Lemma pack_rgb_g (r g b : uchar) :
  Z.land (Z.shiftr (pack_rgb r g b) 8) 255 = uchar_to_Z g.
Proof.
  apply pack_rgb_byte; [lia |]. intros n Hn.
  rewrite pack_rgb_testbit by lia.
  destruct (Z.ltb_spec (n + 8) 8); [lia |].
  destruct (Z.ltb_spec (n + 8) 16); [| lia]. f_equal; lia.
Qed.

Lemma pack_rgb_r (r g b : uchar) :
  Z.land (Z.shiftr (pack_rgb r g b) 16) 255 = uchar_to_Z r.
Proof.
  apply pack_rgb_byte; [lia |]. intros n Hn.
  rewrite pack_rgb_testbit by lia.
  destruct (Z.ltb_spec (n + 16) 8); [lia |].
  destruct (Z.ltb_spec (n + 16) 16); [lia |].
  destruct (Z.ltb_spec (n + 16) 24); [| lia]. f_equal; lia.
Qed.

Lemma pack_rgb_a (r g b : uchar) :
  Z.shiftr (pack_rgb r g b) 24 = 0.
Proof.
  apply Z.bits_inj'. intros n Hn.
  rewrite Z.shiftr_spec, pack_rgb_testbit, Z.bits_0 by lia.
  destruct (Z.ltb_spec (n + 24) 8); [lia |].
  destruct (Z.ltb_spec (n + 24) 16); [lia |].
  destruct (Z.ltb_spec (n + 24) 24); [lia | reflexivity].
Qed.

Lemma pack_rgb_range (r g b : uchar) : 0 <= pack_rgb r g b < 2 ^ 24.
Proof.
  pose proof (uchar_to_Z_range r). pose proof (uchar_to_Z_range g).
  pose proof (uchar_to_Z_range b).
  assert (0 <= pack_rgb r g b) as Hnn.
  { unfold pack_rgb. rewrite !Z.lor_nonneg, !Z.shiftl_nonneg. lia. }
  split; [exact Hnn |].
  destruct (Z.eq_dec (pack_rgb r g b) 0) as [-> | Hne]; [reflexivity |].
  apply Z.log2_lt_pow2; [lia |].
  destruct (Z.lt_ge_cases (Z.log2 (pack_rgb r g b)) 24) as [Hlt | Hge];
    [exact Hlt | exfalso].
  pose proof (Z.bit_log2 (pack_rgb r g b) ltac:(lia)) as Hbit.
  rewrite pack_rgb_testbit in Hbit by lia.
  destruct (Z.ltb_spec (Z.log2 (pack_rgb r g b)) 8); [lia |].
  destruct (Z.ltb_spec (Z.log2 (pack_rgb r g b)) 16); [lia |].
  destruct (Z.ltb_spec (Z.log2 (pack_rgb r g b)) 24); [lia | discriminate].
Qed.

(** ** Loops *)

(** The invariant rule for a counted loop: an invariant that holds at
    entry and that every iteration keeps (the body succeeding there) holds
    at exit, and the loop succeeds. *)
Lemma for_from_invariant {St : Type} (P : Z -> St -> Prop)
    (body : Z -> St -> result St) (n : nat) :
  forall (i : Z) (s : St),
    P i s ->
    (forall j t, i <= j < i + Z.of_nat n -> P j t ->
       exists t', body j t = Ok t' /\ P (j + 1) t') ->
    exists s', for_from i n body s = Ok s' /\ P (i + Z.of_nat n) s'.
Proof.
  induction n as [| n IH]; intros i s Hinit Hstep.
  - exists s. split; [reflexivity |]. by replace (i + Z.of_nat 0) with i by lia.
  - destruct (Hstep i s ltac:(lia) Hinit) as (t & Hbody & Ht).
    destruct (IH (i + 1) t Ht) as (s' & Hrun & Hs').
    { intros j u Hj. apply Hstep. lia. }
    exists s'. split.
    + cbn [for_from]. rewrite Hbody. exact Hrun.
    + by replace (i + Z.of_nat (S n)) with (i + 1 + Z.of_nat n) by lia.
Qed.

Lemma for_range_invariant {St : Type} (P : Z -> St -> Prop)
    (body : Z -> St -> result St) (hi : Z) (s : St) :
  0 <= hi ->
  P 0 s ->
  (forall j t, 0 <= j < hi -> P j t ->
     exists t', body j t = Ok t' /\ P (j + 1) t') ->
  exists s', for_range 0 hi body s = Ok s' /\ P hi s'.
Proof.
  intros Hhi Hinit Hstep. unfold for_range.
  destruct (for_from_invariant P body (Z.to_nat (hi - 0)) 0 s Hinit)
    as (s' & Hrun & Hs').
  { intros j t Hj. apply Hstep. lia. }
  exists s'. split; [exact Hrun |].
  replace (0 + Z.of_nat (Z.to_nat (hi - 0))) with hi in Hs' by lia.
  exact Hs'.
Qed.

(** ** The [int] arithmetic of the indices *)

Lemma to_int_small (z : Z) : - 2 ^ 31 <= z <= INT_MAX -> to_int z = z.
Proof.
  unfold to_int, INT_MAX. intros Hz. rewrite Z.mod_small by lia. lia.
Qed.

Lemma to_int_add_l (a b : Z) : to_int (to_int a + b) = to_int (a + b).
Proof.
  unfold to_int.
  replace ((a + 2 ^ 31) mod 2 ^ 32 - 2 ^ 31 + b + 2 ^ 31)
    with ((a + 2 ^ 31) mod 2 ^ 32 + b) by lia.
  replace (a + b + 2 ^ 31) with (a + 2 ^ 31 + b) by lia.
  by rewrite Zplus_mod_idemp_l.
Qed.

(** [y * cols + x] in [int]s is exact when the exact result fits. *)
Lemma int_index (y cols x : Z) :
  0 <= y * cols + x <= INT_MAX ->
  int_add (int_mul y cols) x = y * cols + x.
Proof.
  intros Hfit. unfold int_add, int_mul. rewrite to_int_add_l.
  apply to_int_small. lia.
Qed.

(** The first sum past [INT_MAX] is a negative [int]. *)
Lemma int_index_wraps (y cols x : Z) :
  y * cols + x = 2 ^ 31 -> int_add (int_mul y cols) x = - 2 ^ 31.
Proof.
  intros Hsum. unfold int_add, int_mul. rewrite to_int_add_l, Hsum.
  reflexivity.
Qed.

(** ** Matrix accesses *)

Lemma cell_index_bound (h w y x : Z) :
  0 <= y < h -> 0 <= x < w -> 0 <= y * w + x < h * w.
Proof. intros Hy Hx. nia. Qed.

Lemma offset_shaped {T : Type} (m : cv.Mat T) (h w y x c : Z) :
  shaped m h w -> 0 <= y < h -> 0 <= x < w -> 0 <= c < 3 ->
  cv.offset m y (x * 3 + c) 1 = Ok (Z.to_nat ((y * w + x) * 3 + c)).
Proof.
  intros (Hr & Hc & Hn & _) Hy Hx Hcn. unfold cv.offset.
  rewrite Hr, Hc, Hn.
  assert ((0 <=? y) && (y <? h) = true) as ->.
  { apply andb_true_iff. split; [apply Z.leb_le | apply Z.ltb_lt]; lia. }
  assert ((0 <=? (x * 3 + c) * 1) && ((x * 3 + c) * 1 <? w * 3) = true) as ->.
  { apply andb_true_iff. split; [apply Z.leb_le | apply Z.ltb_lt]; lia. }
  cbn. do 2 f_equal. lia.
Qed.

Lemma offset_shaped_Vec3 {T : Type} (m : cv.Mat T) (h w y x : Z) :
  shaped m h w -> 0 <= y < h -> 0 <= x < w ->
  cv.offset m y x 3 = Ok (Z.to_nat ((y * w + x) * 3)).
Proof.
  intros (Hr & Hc & Hn & _) Hy Hx. unfold cv.offset.
  rewrite Hr, Hc, Hn.
  assert ((0 <=? y) && (y <? h) = true) as ->.
  { apply andb_true_iff. split; [apply Z.leb_le | apply Z.ltb_lt]; lia. }
  assert ((0 <=? x * 3) && (x * 3 <? w * 3) = true) as ->.
  { apply andb_true_iff. split; [apply Z.leb_le | apply Z.ltb_lt]; lia. }
  cbn. do 2 f_equal. lia.
Qed.

Lemma store_shaped {T : Type} (m : cv.Mat T) (h w : Z) (i : nat) (v : T) :
  shaped m h w -> Z.of_nat i < h * w * 3 ->
  exists m', cv.store m i v = Ok m' /\ shaped m' h w /\
             cv.data m' = <[i := v]> (cv.data m).
Proof.
  intros (Hr & Hc & Hn & Hlen) Hi. unfold cv.store.
  assert ((i <? length (cv.data m))%nat = true) as ->.
  { apply Nat.ltb_lt. lia. }
  cbn. eexists. split; [reflexivity |]. split; [| reflexivity].
  unfold shaped. cbn. rewrite length_insert. auto.
Qed.

Lemma at_put_shaped {T : Type} (m : cv.Mat T) (h w y x c : Z) (v : T) :
  shaped m h w -> 0 <= y < h -> 0 <= x < w -> 0 <= c < 3 ->
  exists m', cv.at_put m y (x * 3 + c) v = Ok m' /\ shaped m' h w /\
             cv.data m' = <[Z.to_nat ((y * w + x) * 3 + c) := v]> (cv.data m).
Proof.
  intros Hm Hy Hx Hc. unfold cv.at_put.
  rewrite (offset_shaped m h w) by assumption. cbn [bind].
  apply store_shaped; [assumption |].
  pose proof (cell_index_bound h w y x Hy Hx). lia.
Qed.

Lemma at_shaped {T : Type} (m : cv.Mat T) (h w y x c : Z) (v : T) :
  shaped m h w -> 0 <= y < h -> 0 <= x < w -> 0 <= c < 3 ->
  cv.data m !! Z.to_nat ((y * w + x) * 3 + c) = Some v ->
  cv.at_ m y (x * 3 + c) = Ok v.
Proof.
  intros Hm Hy Hx Hc Hv. unfold cv.at_.
  rewrite (offset_shaped m h w) by assumption. cbn [bind].
  unfold cv.load. by rewrite Hv.
Qed.

Lemma at_Vec3_shaped {T : Type} (m : cv.Mat T) (h w y x : Z) (a b c : T) :
  shaped m h w -> 0 <= y < h -> 0 <= x < w ->
  cv.data m !! Z.to_nat ((y * w + x) * 3 + 0) = Some a ->
  cv.data m !! Z.to_nat ((y * w + x) * 3 + 1) = Some b ->
  cv.data m !! Z.to_nat ((y * w + x) * 3 + 2) = Some c ->
  cv.at_Vec3 m (cv.mkPoint x y) = Ok (cv.mkVec3 a b c).
Proof.
  intros Hm Hy Hx Ha Hb Hc. unfold cv.at_Vec3. cbn [cv.px cv.py].
  rewrite (offset_shaped_Vec3 m h w) by assumption. cbn [bind].
  pose proof (cell_index_bound h w y x Hy Hx) as Hk.
  unfold cv.load.
  replace (Z.to_nat ((y * w + x) * 3)) with (Z.to_nat ((y * w + x) * 3 + 0))
    by lia.
  rewrite Ha. cbn [bind].
  replace (Z.to_nat ((y * w + x) * 3 + 0) + 1)%nat
    with (Z.to_nat ((y * w + x) * 3 + 1)) by lia.
  rewrite Hb. cbn [bind].
  replace (Z.to_nat ((y * w + x) * 3 + 0) + 2)%nat
    with (Z.to_nat ((y * w + x) * 3 + 2)) by lia.
  rewrite Hc. reflexivity.
Qed.

Lemma at_Vec3_put_shaped {T : Type} (m : cv.Mat T) (h w y x : Z) (v : cv.Vec3 T) :
  shaped m h w -> 0 <= y < h -> 0 <= x < w ->
  exists m', cv.at_Vec3_put m (cv.mkPoint x y) v = Ok m' /\ shaped m' h w /\
    cv.data m' =
      <[Z.to_nat ((y * w + x) * 3 + 2) := cv.v2 v]>
        (<[Z.to_nat ((y * w + x) * 3 + 1) := cv.v1 v]>
           (<[Z.to_nat ((y * w + x) * 3 + 0) := cv.v0 v]> (cv.data m))).
Proof.
  intros Hm Hy Hx. unfold cv.at_Vec3_put. cbn [cv.px cv.py].
  rewrite (offset_shaped_Vec3 m h w) by assumption. cbn [bind].
  pose proof (cell_index_bound h w y x Hy Hx) as Hk.
  destruct (store_shaped m h w (Z.to_nat ((y * w + x) * 3)) (cv.v0 v) Hm)
    as (m1 & -> & Hm1 & Hd1); [lia |]. cbn [bind].
  destruct (store_shaped m1 h w (Z.to_nat ((y * w + x) * 3) + 1)%nat (cv.v1 v) Hm1)
    as (m2 & -> & Hm2 & Hd2); [lia |]. cbn [bind].
  destruct (store_shaped m2 h w (Z.to_nat ((y * w + x) * 3) + 2)%nat (cv.v2 v) Hm2)
    as (m3 & -> & Hm3 & Hd3); [lia |].
  exists m3. split; [reflexivity |]. split; [assumption |].
  rewrite Hd3, Hd2, Hd1.
  replace (Z.to_nat ((y * w + x) * 3 + 0)) with (Z.to_nat ((y * w + x) * 3)) by lia.
  replace (Z.to_nat ((y * w + x) * 3 + 1)) with (Z.to_nat ((y * w + x) * 3) + 1)%nat by lia.
  replace (Z.to_nat ((y * w + x) * 3 + 2)) with (Z.to_nat ((y * w + x) * 3) + 2)%nat by lia.
  reflexivity.
Qed.

(** Writing the three scalars of cell [k] sets that cell and leaves every
    other cell as it was. *)
Lemma insert_cell {T : Type} (l : list T) (n k : Z) (a b c : T) :
  Z.of_nat (length l) = n * 3 -> 0 <= k < n ->
  let l' := <[Z.to_nat (k * 3 + 2) := c]>
              (<[Z.to_nat (k * 3 + 1) := b]>
                 (<[Z.to_nat (k * 3 + 0) := a]> l)) in
  l' !! Z.to_nat (k * 3 + 0) = Some a /\
  l' !! Z.to_nat (k * 3 + 1) = Some b /\
  l' !! Z.to_nat (k * 3 + 2) = Some c /\
  (forall k' i, 0 <= k' -> k' <> k -> 0 <= i < 3 ->
     l' !! Z.to_nat (k' * 3 + i) = l !! Z.to_nat (k' * 3 + i)).
Proof.
  intros Hlen Hk l'. subst l'. repeat split.
  - rewrite !list_lookup_insert_ne by lia.
    apply list_lookup_insert_eq. lia.
  - rewrite list_lookup_insert_ne by lia.
    apply list_lookup_insert_eq. rewrite length_insert. lia.
  - apply list_lookup_insert_eq. rewrite !length_insert. lia.
  - intros k' i Hk' Hne Hi. by rewrite !list_lookup_insert_ne by lia.
Qed.

Section ConversionProperties.

Context `{FloatOps}.
Variable junk64 : nat -> float64.
Variable junk8 : nat -> uchar.

(** ** cloudToImage *)

Lemma points_at_valid (cloud : pcl.PointCloud) (i : Z) :
  0 <= i < Z.of_nat (length (pcl.points cloud)) ->
  exists p, pcl.points cloud !! Z.to_nat i = Some p /\
            pcl.points_at cloud i = Ok p.
Proof.
  intros Hi.
  destruct (lookup_lt_is_Some_2 (pcl.points cloud) (Z.to_nat i)) as [p Hp];
    [lia |].
  exists p. split; [exact Hp |]. unfold pcl.points_at.
  assert ((0 <=? i) = true) as -> by (apply Z.leb_le; lia).
  cbn. by rewrite Hp.
Qed.

Lemma cloudToImage_body_filled (cloud : pcl.PointCloud) (h w y x : Z)
    (images : cv.Mat float64 * cv.Mat uchar) :
  Z.of_nat (length (pcl.points cloud)) = w * h ->
  h * w <= INT_MAX -> 3 * w <= INT_MAX ->
  0 <= y < h -> 0 <= x < w ->
  filled cloud h w (y * w + x) images ->
  exists images',
    cloudToImage_body cloud w y x images = Ok images' /\
    filled cloud h w (y * w + x + 1) images'.
Proof.
  intros Hlen Hfit Hfit3 Hy Hx (Hpos & Hcol & Hcells).
  pose proof (cell_index_bound h w y x Hy Hx) as Hk.
  destruct (points_at_valid cloud (y * w + x)) as (p & Hp & Hat); [lia |].
  unfold cloudToImage_body. rewrite !int_index by lia. rewrite Hat. cbn [bind].
  destruct (at_put_shaped images.1 h w y x 0 (to_double (pcl.x p)) Hpos Hy Hx)
    as (m1 & -> & Hm1 & Hd1); [lia |]. cbn [bind].
  destruct (at_put_shaped m1 h w y x 1 (to_double (pcl.y p)) Hm1 Hy Hx)
    as (m2 & -> & Hm2 & Hd2); [lia |]. cbn [bind].
  destruct (at_put_shaped m2 h w y x 2 (to_double (pcl.z p)) Hm2 Hy Hx)
    as (m3 & -> & Hm3 & Hd3); [lia |]. cbn [bind].
  destruct (at_Vec3_put_shaped images.2 h w y x
              (cv.mkVec3 (pcl.b p) (pcl.g p) (pcl.r p)) Hcol Hy Hx)
    as (c3 & -> & Hc3 & Hdc). cbn [bind].
  exists (m3, c3). split; [reflexivity |].
  rewrite Hd2, Hd1 in Hd3. cbn [cv.v0 cv.v1 cv.v2] in Hdc.
  destruct Hpos as (_ & _ & _ & Hlp). destruct Hcol as (_ & _ & _ & Hlc).
  destruct (insert_cell (cv.data images.1) (h * w) (y * w + x)
              (to_double (pcl.x p)) (to_double (pcl.y p)) (to_double (pcl.z p)))
    as (Hx0 & Hx1 & Hx2 & Hxo); [lia | lia |].
  destruct (insert_cell (cv.data images.2) (h * w) (y * w + x)
              (pcl.b p) (pcl.g p) (pcl.r p))
    as (Hb0 & Hb1 & Hb2 & Hbo); [lia | lia |].
  rewrite <- Hd3 in Hx0, Hx1, Hx2, Hxo. rewrite <- Hdc in Hb0, Hb1, Hb2, Hbo.
  split; [exact Hm3 |]. split; [exact Hc3 |]. cbn [fst snd].
  intros c q Hc Hq.
  destruct (Z.eq_dec c (y * w + x)) as [-> | Hne].
  - rewrite Hp in Hq. injection Hq as <-. auto 10.
  - rewrite !Hxo, !Hbo by lia. apply Hcells; [lia | exact Hq].
Qed.

(** What [cloudToImage] returns for a cloud that passes its two
    assertions and holds [width * height] points. *)
Lemma cloudToImage_filled (cloud : pcl.PointCloud) :
  pcl.valid cloud ->
  pcl.width cloud <> 1 \/ pcl.height cloud <> 1 ->
  pcl.width cloud < INT_MAX -> pcl.height cloud < INT_MAX ->
  pcl.width cloud * pcl.height cloud <= INT_MAX ->
  3 * pcl.width cloud <= INT_MAX ->
  exists images,
    cloudToImage junk64 junk8 cloud = Ok images /\
    filled cloud (pcl.height cloud) (pcl.width cloud)
           (pcl.height cloud * pcl.width cloud) images.
Proof.
  intros (Hw & Hh & Hlen) Hnd Hwm Hhm Hfit Hfit3.
  set (w := pcl.width cloud) in *. set (h := pcl.height cloud) in *.
  unfold cloudToImage. fold w h.
  assert (negb (w =? 1) || negb (h =? 1) = true) as ->.
  { apply orb_true_iff.
    destruct Hnd; [left | right]; apply negb_true_iff, Z.eqb_neq; done. }
  assert ((w <? INT_MAX) && (h <? INT_MAX) = true) as ->.
  { apply andb_true_iff. split; apply Z.ltb_lt; done. }
  cbn [assert bind].
  assert (int_of_uint32 w = w) as ->.
  { unfold int_of_uint32. unfold INT_MAX in Hwm.
    destruct (Z.ltb_spec w (2 ^ 31)); lia. }
  assert (int_of_uint32 h = h) as ->.
  { unfold int_of_uint32. unfold INT_MAX in Hhm.
    destruct (Z.ltb_spec h (2 ^ 31)); lia. }
  unfold cv.create. cbn [cv.rows cv.cols].
  change (CV.CV_MAT_CN CV.CV_64FC3) with 3.
  change (CV.CV_MAT_CN CV.CV_8UC3) with 3.
  apply (for_range_invariant (fun y => filled cloud h w (y * w))); [lia | |].
  - repeat split; cbn; try rewrite length_fmap, length_seq; nia.
  - intros y images Hy Hrow.
    destruct (for_range_invariant (fun x => filled cloud h w (y * w + x))
                (fun x images => cloudToImage_body cloud w y x images)
                w images) as (images' & Hrun & Hdone); [lia | | |].
    + by rewrite Z.add_0_r.
    + intros x t Hx Ht.
      replace (y * w + (x + 1)) with (y * w + x + 1) by lia.
      apply cloudToImage_body_filled; try done; lia.
    + exists images'. split; [exact Hrun |].
      by replace ((y + 1) * w) with (y * w + w) by lia.
Qed.

(** ** imageToCloud *)

Lemma shaped_lookup {T : Type} (m : cv.Mat T) (h w c i : Z) :
  shaped m h w -> 0 <= c < h * w -> 0 <= i < 3 ->
  exists v, cv.data m !! Z.to_nat (c * 3 + i) = Some v.
Proof.
  intros (_ & _ & _ & Hlen) Hc Hi.
  apply lookup_lt_is_Some_2. lia.
Qed.

Lemma imageToCloud_body_built (color_image : cv.Mat uchar)
    (position_image : cv.Mat float64) (header : pcl.PCLHeader)
    (h w y x : Z) (cloud : pcl.PointCloud) :
  shaped color_image h w -> shaped position_image h w ->
  3 * w <= INT_MAX ->
  0 <= y < h -> 0 <= x < w ->
  built color_image position_image header (y * w + x) cloud ->
  exists cloud',
    imageToCloud_body color_image position_image y x cloud = Ok cloud' /\
    built color_image position_image header (y * w + x + 1) cloud'.
Proof.
  intros Hcol Hpos Hfit3 Hy Hx (Hhd & Hlen & Hcells).
  pose proof (cell_index_bound h w y x Hy Hx) as Hk.
  destruct (shaped_lookup position_image h w (y * w + x) 0 Hpos) as [px Hpx];
    [lia | lia |].
  destruct (shaped_lookup position_image h w (y * w + x) 1 Hpos) as [py Hpy];
    [lia | lia |].
  destruct (shaped_lookup position_image h w (y * w + x) 2 Hpos) as [pz Hpz];
    [lia | lia |].
  destruct (shaped_lookup color_image h w (y * w + x) 0 Hcol) as [b Hb];
    [lia | lia |].
  destruct (shaped_lookup color_image h w (y * w + x) 1 Hcol) as [g Hg];
    [lia | lia |].
  destruct (shaped_lookup color_image h w (y * w + x) 2 Hcol) as [r Hr];
    [lia | lia |].
  unfold imageToCloud_body. rewrite !int_index by lia.
  rewrite (at_shaped position_image h w y x 0 px) by (assumption || lia).
  cbn [bind].
  rewrite (at_shaped position_image h w y x 1 py) by (assumption || lia).
  cbn [bind].
  rewrite (at_shaped position_image h w y x 2 pz) by (assumption || lia).
  cbn [bind].
  rewrite (at_Vec3_shaped color_image h w y x b g r) by assumption.
  cbn [bind cv.v0 cv.v1 cv.v2].
  eexists. split; [reflexivity |].
  unfold built, pcl.push_back. cbn [pcl.header pcl.points].
  split; [exact Hhd |]. split.
  { rewrite length_app. cbn [length]. lia. }
  intros c Hc. destruct (Z.eq_dec c (y * w + x)) as [-> | Hne].
  - eexists. split.
    + rewrite lookup_app_r by lia.
      replace (Z.to_nat (y * w + x) - length (pcl.points cloud))%nat
        with 0%nat by lia.
      reflexivity.
    + exists px, py, pz, b, g, r. auto 10.
  - destruct (Hcells c) as (p & Hp & Hpix); [lia |].
    exists p. split; [| exact Hpix].
    rewrite lookup_app_l by lia. exact Hp.
Qed.

(** What [imageToCloud] returns for two three-channel matrices of the
    same size. *)
Lemma imageToCloud_built (color_image : cv.Mat uchar)
    (position_image : cv.Mat float64) (header : pcl.PCLHeader) (h w : Z) :
  shaped color_image h w -> shaped position_image h w ->
  0 <= h <= INT_MAX -> 0 <= w -> 3 * w <= INT_MAX ->
  exists cloud,
    imageToCloud color_image position_image header = Ok cloud /\
    pcl.width cloud = w /\ pcl.height cloud = h /\
    pcl.is_dense cloud = false /\
    built color_image position_image header (h * w) cloud.
Proof.
  intros Hcol Hpos Hh Hw Hfit3. unfold imageToCloud.
  pose proof Hcol as (Hcr & Hcc & _). pose proof Hpos as (Hpr & Hpc & _).
  rewrite Hcr, Hcc, Hpr, Hpc, !Z.eqb_refl. cbn [assert bind].
  destruct (for_range_invariant
              (fun y => built color_image position_image header (y * w))
              (fun y cloud =>
                 for_range 0 w (fun x cloud =>
                   imageToCloud_body color_image position_image y x cloud)
                   cloud)
              h
              {| pcl.header := header;
                 pcl.points := pcl.points pcl.PointCloud_new;
                 pcl.width := pcl.width pcl.PointCloud_new;
                 pcl.height := pcl.height pcl.PointCloud_new;
                 pcl.is_dense := pcl.is_dense pcl.PointCloud_new |})
    as (cloud & Hrun & Hdone); [lia | | |].
  - repeat split; cbn; intros; lia.
  - intros y cloud Hy Hrow.
    destruct (for_range_invariant
                (fun x => built color_image position_image header (y * w + x))
                (fun x cloud =>
                   imageToCloud_body color_image position_image y x cloud)
                w cloud) as (cloud' & Hrun & Hdone); [lia | | |].
    + by rewrite Z.add_0_r.
    + intros x t Hx Ht.
      replace (y * w + (x + 1)) with (y * w + x + 1) by lia.
      by apply (imageToCloud_body_built _ _ _ h).
    + exists cloud'. split; [exact Hrun |].
      by replace ((y + 1) * w) with (y * w + w) by lia.
  - rewrite Hrun. cbn [bind]. eexists. split; [reflexivity |].
    cbn [pcl.width pcl.height pcl.is_dense].
    unfold uint32_of_int, INT_MAX in *.
    rewrite !Z.mod_small by lia.
    repeat split; try apply Hdone.
Qed.


Lemma valid_shaped {T : Type} (m : cv.Mat T) :
  cv.valid m -> cv.channels m = 3 -> shaped m (cv.rows m) (cv.cols m).
Proof.
  intros (_ & _ & _ & Hlen) Hcn. unfold shaped. rewrite Hlen, Hcn. auto.
Qed.



(** The colour bytes of a point whose packed colour is [pack_rgb r g b]. *)
Lemma packed_point_bytes (px py pz : float32) (r g b : uchar) :
  let p := {| pcl.x := px; pcl.y := py; pcl.z := pz;
              pcl.rgb := pack_rgb r g b |} in
  pcl.r p = r /\ pcl.g p = g /\ pcl.b p = b /\ pcl.a p = x00.
Proof.
  cbn zeta. unfold pcl.r, pcl.g, pcl.b, pcl.a. cbn [pcl.rgb].
  rewrite pack_rgb_r, pack_rgb_g, pack_rgb_b, pack_rgb_a, !uchar_of_to_Z.
  repeat split; reflexivity.
Qed.


(** C4. For every pair of matrices whose row counts differ or whose
    column counts differ, [imageToCloud] ends at an assertion and returns
    no cloud. *)
Theorem imageToCloud_shape_mismatch (color_image : cv.Mat uchar)
    (position_image : cv.Mat float64) (header : pcl.PCLHeader) :
  cv.rows color_image <> cv.rows position_image \/
  cv.cols color_image <> cv.cols position_image ->
  imageToCloud color_image position_image header = Err ShapeMismatch.
Proof.
  intros Hne. unfold imageToCloud.
  destruct (Z.eqb_spec (cv.rows color_image) (cv.rows position_image))
    as [Hr | Hr]; [| reflexivity].
  destruct (Z.eqb_spec (cv.cols color_image) (cv.cols position_image))
    as [Hc | Hc]; [| reflexivity].
  tauto.
Qed.



End ConversionProperties.

(** ** applyMask *)

Lemma mul_same_shape {T : Type} (emul : T -> T -> T) (a m : cv.Mat T) :
  cv.rows a = cv.rows m -> cv.cols a = cv.cols m ->
  cv.channels a = cv.channels m ->
  cv.mul emul a m =
    Ok (cv.mkMat (cv.rows a) (cv.cols a) (cv.channels a)
          (zip_with emul (cv.data a) (cv.data m))).
Proof.
  intros Hr Hc Hn. unfold cv.mul. by rewrite Hr, Hc, Hn, !Z.eqb_refl.
Qed.

Lemma mul_other_shape {T : Type} (emul : T -> T -> T) (a m : cv.Mat T) :
  cv.rows a <> cv.rows m \/ cv.cols a <> cv.cols m \/
  cv.channels a <> cv.channels m ->
  cv.mul emul a m = Err StsUnmatchedSizes.
Proof.
  intros Hne. unfold cv.mul.
  destruct (Z.eqb_spec (cv.rows a) (cv.rows m)); [| reflexivity].
  destruct (Z.eqb_spec (cv.cols a) (cv.cols m)); [| reflexivity].
  destruct (Z.eqb_spec (cv.channels a) (cv.channels m)); [| reflexivity].
  tauto.
Qed.

Lemma mul8u_one (a : uchar) : mul8u a x01 = a.
Proof.
  unfold mul8u, saturate_uchar. pose proof (uchar_to_Z_range a) as Ha.
  change (uchar_to_Z x01) with 1. rewrite Z.mul_1_r.
  destruct (Z.leb_spec 0 (uchar_to_Z a)); [| lia].
  destruct (Z.leb_spec (uchar_to_Z a) 255); [| lia].
  apply uchar_of_to_Z.
Qed.

Lemma mul8u_zero (a : uchar) : mul8u a x00 = x00.
Proof.
  unfold mul8u. change (uchar_to_Z x00) with 0. by rewrite Z.mul_0_r.
Qed.

(** ** Products at a depth *)

Lemma saturate_inside (lo hi v : Z) : lo <= v <= hi -> saturate lo hi v = v.
Proof.
  intros Hv. unfold saturate.
  destruct (Z.ltb_spec v lo); [lia |]. destruct (Z.ltb_spec hi v); [lia | done].
Qed.

(** The product of a value of a binary format with the 1 of the format,
    [2 ^ shift] at exponent [- shift], is the value: the mantissa is
    shifted back by the rounding, which finds nothing to round. *)
Ltac SFmul_by_one shift :=
  let Hx := fresh "Hx" in
  let Hc := fresh "Hc" in
  let Hb := fresh "Hb" in
  intros Hx;
  match goal with
  | |- SFmul _ _ ?x _ = _ =>
      destruct x as [[] | [] | | ? ? ?]; [reflexivity .. |]
  end;
  cbn [one]; unfold SFmul; rewrite xorb_false_r;
  cbn [valid_binary] in Hx; unfold bounded, canonical_mantissa in Hx;
  apply andb_true_iff in Hx as [Hc Hb]; apply Z.eqb_eq in Hc;
  rewrite !Pos.mul_xO_r, Pos.mul_1_r;
  unfold binary_round_aux, shr_fexp;
  cbn [Zdigits2 digits2_pos];
  match type of Hc with
  | fexp _ _ (Z.pos (digits2_pos ?m) + ?e) = _ =>
      match goal with
      | |- context [fexp _ _ ?a] =>
          replace a with (Z.pos (digits2_pos m) + e) by lia
      end;
      rewrite Hc;
      replace (e - (e + Z.neg shift)) with (Z.pos shift) by lia;
      cbn [shr shr_record_of_loc SpecFloat.iter_pos shr_1 orb shr_m loc_of_shr_record
           round_nearest_even Zdigits2];
      replace (e + Z.neg shift + Z.pos shift) with e by lia;
      rewrite Hc, Z.sub_diag; cbn [shr shr_m]; rewrite Hb; reflexivity
  end.

Lemma SFmul_one32 (x : spec_float) :
  valid_binary 24 128 x = true -> SFmul 24 128 x (one cv.D32F) = x.
Proof. SFmul_by_one 23%positive. Qed.

Lemma SFmul_one64 (x : spec_float) :
  valid_binary 53 1024 x = true -> SFmul 53 1024 x (one cv.D64F) = x.
Proof. SFmul_by_one 52%positive. Qed.

Lemma SFmul_zero (prec emax : Z) (x : spec_float) :
  SFmul prec emax x (S754_zero false) = float_masked_by_zero x.
Proof. destruct x as [s | s | | s m e]; cbn; rewrite ?xorb_false_r; reflexivity. Qed.

Lemma multiply_scalar_one (d : cv.depth) (a : cv.scalar d) :
  cv.is_scalar d a -> cv.multiply_scalar d a (one d) = a.
Proof.
  destruct d; cbn [cv.is_scalar cv.multiply_scalar one cv.scalar] in *; intros Ha.
  - apply mul8u_one.
  - rewrite Z.mul_1_r. by apply saturate_inside.
  - rewrite Z.mul_1_r. by apply saturate_inside.
  - rewrite Z.mul_1_r. by apply saturate_inside.
  - unfold int_mul. rewrite Z.mul_1_r. by apply to_int_small.
  - by apply SFmul_one32.
  - by apply SFmul_one64.
Qed.

Lemma multiply_scalar_zero (d : cv.depth) (a : cv.scalar d) :
  cv.multiply_scalar d a (zero d) = masked_by_zero d a.
Proof.
  destruct d; cbn [cv.multiply_scalar zero masked_by_zero cv.scalar] in *.
  - apply mul8u_zero.
  - by rewrite Z.mul_0_r.
  - by rewrite Z.mul_0_r.
  - by rewrite Z.mul_0_r.
  - unfold int_mul. by rewrite Z.mul_0_r.
  - apply SFmul_zero.
  - apply SFmul_zero.
Qed.

Lemma masked_by_zero_integer (d : cv.depth) (a : cv.scalar d) :
  cv.is_float d = false -> masked_by_zero d a = zero d.
Proof. destruct d; cbn; done. Qed.

Lemma depth_eq_dec_refl (d : cv.depth) : cv.depth_eq_dec d d = left eq_refl.
Proof. by destruct d. Qed.

(** Two operands of one depth are multiplied by the product of the
    depth. *)
Lemma mul_any_same_depth (d : cv.depth) (a m : cv.Mat (cv.scalar d)) :
  cv.mul_any (cv.mkAny d a) (cv.mkAny d m) =
    bind (cv.mul (cv.multiply_scalar d) a m) (fun product => Ok (cv.mkAny d product)).
Proof.
  unfold cv.mul_any, cv.mul, assert. cbn [cv.depth_of cv.mat_of].
  rewrite depth_eq_dec_refl. cbn [eq_rect].
  destruct ((cv.rows a =? cv.rows m) && (cv.cols a =? cv.cols m)
            && (cv.channels a =? cv.channels m)); reflexivity.
Qed.

Lemma mul_any_other_shape (a m : cv.AnyMat) :
  cv.rows (cv.mat_of a) <> cv.rows (cv.mat_of m) \/
  cv.cols (cv.mat_of a) <> cv.cols (cv.mat_of m) \/
  cv.channels (cv.mat_of a) <> cv.channels (cv.mat_of m) ->
  cv.mul_any a m = Err StsUnmatchedSizes.
Proof.
  intros Hne. unfold cv.mul_any, assert.
  destruct (Z.eqb_spec (cv.rows (cv.mat_of a)) (cv.rows (cv.mat_of m)));
    [| reflexivity].
  destruct (Z.eqb_spec (cv.cols (cv.mat_of a)) (cv.cols (cv.mat_of m)));
    [| reflexivity].
  destruct (Z.eqb_spec (cv.channels (cv.mat_of a)) (cv.channels (cv.mat_of m)));
    [| reflexivity].
  tauto.
Qed.

Lemma mul_any_other_depth (a m : cv.AnyMat) :
  cv.rows (cv.mat_of a) = cv.rows (cv.mat_of m) ->
  cv.cols (cv.mat_of a) = cv.cols (cv.mat_of m) ->
  cv.channels (cv.mat_of a) = cv.channels (cv.mat_of m) ->
  cv.depth_of a <> cv.depth_of m ->
  cv.mul_any a m = Err StsBadArg.
Proof.
  intros Hr Hc Hn Hd. unfold cv.mul_any, assert.
  rewrite Hr, Hc, Hn, !Z.eqb_refl. cbn [andb bind].
  destruct (cv.depth_eq_dec (cv.depth_of m) (cv.depth_of a)); [congruence | done].
Qed.

(** The product of two matrices of one scalar type, of the same size and
    channel count: scalar by scalar. *)
Lemma mul_products {T : Type} (emul : T -> T -> T) (a m : cv.Mat T) :
  cv.valid a -> cv.valid m ->
  cv.rows a = cv.rows m -> cv.cols a = cv.cols m ->
  cv.channels a = cv.channels m ->
  exists product,
    cv.mul emul a m = Ok product /\
    cv.rows product = cv.rows a /\
    cv.cols product = cv.cols a /\
    cv.channels product = cv.channels a /\
    length (cv.data product) = length (cv.data a) /\
    (forall (i : nat) (x y : T),
       cv.data a !! i = Some x -> cv.data m !! i = Some y ->
       cv.data product !! i = Some (emul x y)) /\
    (forall (i : nat) (z : T),
       cv.data product !! i = Some z ->
       exists x y, cv.data a !! i = Some x /\ cv.data m !! i = Some y /\
                   z = emul x y) /\
    ((forall i x y, cv.data a !! i = Some x -> cv.data m !! i = Some y ->
        emul x y = x) ->
     product = a).
Proof.
  intros (_ & _ & _ & Hla) (_ & _ & _ & Hlm) Hr Hc Hn.
  assert (length (cv.data a) = length (cv.data m)) as Hlen.
  { rewrite Hr, Hc, Hn in Hla. lia. }
  rewrite mul_same_shape by assumption.
  eexists. split; [reflexivity |]. cbn [cv.rows cv.cols cv.channels cv.data].
  repeat (split; [reflexivity |]).
  split; [by apply length_zip_with_l_eq |].
  split; [| split].
  - intros i x y Hx Hy. by rewrite lookup_zip_with, Hx, Hy.
  - intros i z Hz. rewrite lookup_zip_with in Hz.
    destruct (cv.data a !! i) as [x |]; [| discriminate].
    destruct (cv.data m !! i) as [y |]; [| discriminate].
    cbn in Hz. injection Hz as <-. eauto.
  - intros Hsame. destruct a as [r c n d]. cbn in *.
    f_equal. apply list_eq. intros i. rewrite lookup_zip_with.
    destruct (d !! i) as [x |] eqn:Hx; [| reflexivity]. cbn.
    destruct (lookup_lt_is_Some_2 (cv.data m) i) as [y Hy].
    { apply lookup_lt_Some in Hx. lia. }
    rewrite Hy. cbn. f_equal. by apply (Hsame i).
Qed.

(** C8, as the code has it.  For every pair of matrices of one depth, of
    the same size and channel count, whose scalars are values of the
    depth, [applyMask] returns, with the flag true, a matrix of that depth
    and size whose every scalar is the product, at that depth, of the two
    scalars at its place.  A mask whose scalars are all 1 gives back the
    input.  A mask whose scalars are all 0 gives a matrix of zeros at the
    integer depths; at the two floating-point depths it gives a zero with
    the sign of the input scalar where that is finite, and NaN where it
    is infinite or NaN. *)
Theorem applyMask_elementwise (d : cv.depth)
    (input_image mask : cv.Mat (cv.scalar d)) :
  cv.valid input_image -> cv.valid mask ->
  (forall a, a ∈ cv.data input_image -> cv.is_scalar d a) ->
  cv.rows input_image = cv.rows mask ->
  cv.cols input_image = cv.cols mask ->
  cv.channels input_image = cv.channels mask ->
  exists masked_image : cv.Mat (cv.scalar d),
    applyMask_any (cv.mkAny d input_image) (cv.mkAny d mask) =
      Ok (true, cv.mkAny d masked_image) /\
    cv.rows masked_image = cv.rows input_image /\
    cv.cols masked_image = cv.cols input_image /\
    cv.channels masked_image = cv.channels input_image /\
    length (cv.data masked_image) = length (cv.data input_image) /\
    (forall (i : nat) (a m : cv.scalar d),
       cv.data input_image !! i = Some a -> cv.data mask !! i = Some m ->
       cv.data masked_image !! i = Some (cv.multiply_scalar d a m)) /\
    ((forall m, m ∈ cv.data mask -> m = one d) ->
     masked_image = input_image) /\
    ((forall m, m ∈ cv.data mask -> m = zero d) ->
     (forall (i : nat) (a : cv.scalar d),
        cv.data input_image !! i = Some a ->
        cv.data masked_image !! i = Some (masked_by_zero d a)) /\
     (cv.is_float d = false ->
      forall v, v ∈ cv.data masked_image -> v = zero d)).
Proof.
  intros Hvi Hvm Hscalars Hr Hc Hn.
  destruct (mul_products (cv.multiply_scalar d) input_image mask Hvi Hvm Hr Hc Hn)
    as (masked & Hmul & Hmr & Hmc & Hmn & Hlen & Hcells & Hfrom & Hsame).
  exists masked. unfold applyMask_any. rewrite mul_any_same_depth, Hmul.
  split; [reflexivity |]. do 4 (split; [assumption |]).
  split; [exact Hcells |]. split.
  - intros Hones. apply Hsame. intros i a m Ha Hm.
    rewrite (Hones m (list_elem_of_lookup_2 _ _ _ Hm)).
    apply multiply_scalar_one, Hscalars. by apply list_elem_of_lookup_2 in Ha.
  - intros Hzeros.
    assert (forall (i : nat) (a : cv.scalar d),
              cv.data input_image !! i = Some a ->
              cv.data masked !! i = Some (masked_by_zero d a)) as Hleft.
    { intros i a Ha.
      destruct (lookup_lt_is_Some_2 (cv.data mask) i) as [m Hm].
      { apply lookup_lt_Some in Ha.
        destruct Hvi as (_ & _ & _ & Hli). destruct Hvm as (_ & _ & _ & Hlm).
        rewrite Hr, Hc, Hn in Hli. lia. }
      rewrite (Hcells i a m Ha Hm), (Hzeros m (list_elem_of_lookup_2 _ _ _ Hm)).
      by rewrite multiply_scalar_zero. }
    split; [exact Hleft |].
    intros Hint v Hv. apply list_elem_of_lookup_1 in Hv as [i Hv].
    destruct (Hfrom i v Hv) as (a & m & Ha & _ & _).
    rewrite (Hleft i a Ha) in Hv. injection Hv as <-.
    by apply masked_by_zero_integer.
Qed.

(** C10, as the code has it.  [applyMask] has no failure branch of its
    own: a flag it returns is true, and it returns one for every pair of
    matrices of the same size, channel count and depth.  For two matrices
    that differ in size or channel count, each of more than one row and
    more than one column, and for two matrices of the same size and
    channel count that differ in depth, the product raises and no flag is
    returned. *)
Theorem applyMask_flag (input_image mask : cv.AnyMat) :
  (forall flag masked_image,
     applyMask_any input_image mask = Ok (flag, masked_image) -> flag = true) /\
  (cv.rows (cv.mat_of input_image) = cv.rows (cv.mat_of mask) ->
   cv.cols (cv.mat_of input_image) = cv.cols (cv.mat_of mask) ->
   cv.channels (cv.mat_of input_image) = cv.channels (cv.mat_of mask) ->
   cv.depth_of input_image = cv.depth_of mask ->
   exists masked_image,
     applyMask_any input_image mask = Ok (true, masked_image)) /\
  (cv.rows (cv.mat_of input_image) <> cv.rows (cv.mat_of mask) \/
   cv.cols (cv.mat_of input_image) <> cv.cols (cv.mat_of mask) \/
   cv.channels (cv.mat_of input_image) <> cv.channels (cv.mat_of mask) ->
   1 < cv.rows (cv.mat_of input_image) -> 1 < cv.cols (cv.mat_of input_image) ->
   1 < cv.rows (cv.mat_of mask) -> 1 < cv.cols (cv.mat_of mask) ->
   applyMask_any input_image mask = Err StsUnmatchedSizes) /\
  (cv.rows (cv.mat_of input_image) = cv.rows (cv.mat_of mask) ->
   cv.cols (cv.mat_of input_image) = cv.cols (cv.mat_of mask) ->
   cv.channels (cv.mat_of input_image) = cv.channels (cv.mat_of mask) ->
   cv.depth_of input_image <> cv.depth_of mask ->
   applyMask_any input_image mask = Err StsBadArg).
Proof.
  split; [| split; [| split]].
  - intros flag masked_image. unfold applyMask_any.
    destruct (cv.mul_any input_image mask); cbn; [| discriminate].
    by intros [= <- _].
  - destruct input_image as [d a], mask as [d' m].
    cbn [cv.mat_of cv.depth_of]. intros Hr Hc Hn <-.
    unfold applyMask_any.
    rewrite mul_any_same_depth, mul_same_shape by assumption.
    cbn [bind]. eauto.
  - intros Hne _ _ _ _. unfold applyMask_any.
    by rewrite mul_any_other_shape.
  - intros Hr Hc Hn Hd. unfold applyMask_any.
    by rewrite mul_any_other_depth.
Qed.

(** ** The floating-point model *)

Lemma IEEE_narrow_widen (f : IEEE.binary32) : IEEE.narrow (IEEE.widen f) = f.
Proof.
  destruct f as [v Hv]. unfold IEEE.narrow, IEEE.widen. cbn [proj1_sig].
  destruct (Sumbool.sumbool_of_bool (IEEE.is_binary32 v)) as [Hv' | Hv'];
    [| congruence].
  f_equal. apply proof_irrel.
Qed.

(** ** The structured-cloud check *)

(** The first assertion stops a cloud of one row and one column. *)
Lemma cloudToImage_single_point `{FloatOps} (junk64 : nat -> float64)
    (junk8 : nat -> uchar)
    (cloud : pcl.PointCloud) :
  pcl.width cloud = 1 -> pcl.height cloud = 1 ->
  cloudToImage junk64 junk8 cloud = Err DegenerateCloud.
Proof. intros Hw Hh. unfold cloudToImage. by rewrite Hw, Hh. Qed.

Example cloudToImage_cloud1x1 :
  cloudToImage Samples.junk64 Samples.junk8 Samples.cloud1x1 =
    Err DegenerateCloud.
Proof. reflexivity. Qed.

(** Among the clouds of [width * height] points whose loop indices fit an
    [int], the first assertion stops the 1x1 cloud and no other. *)
Lemma cloudToImage_DegenerateCloud_iff `{FloatOps} (junk64 : nat -> float64)
    (junk8 : nat -> uchar) (cloud : pcl.PointCloud) :
  pcl.valid cloud ->
  pcl.width cloud < INT_MAX -> pcl.height cloud < INT_MAX ->
  pcl.width cloud * pcl.height cloud <= INT_MAX ->
  3 * pcl.width cloud <= INT_MAX ->
  cloudToImage junk64 junk8 cloud = Err DegenerateCloud <->
  pcl.width cloud = 1 /\ pcl.height cloud = 1.
Proof.
  intros Hvalid Hw Hh Hfit Hfit3. split.
  - intros Herr.
    destruct (Z.eq_dec (pcl.width cloud) 1) as [Hw1 | Hw1];
      [destruct (Z.eq_dec (pcl.height cloud) 1) as [Hh1 | Hh1]; [done |] |].
    + destruct (cloudToImage_filled junk64 junk8 cloud Hvalid (or_intror Hh1)
                  Hw Hh Hfit Hfit3) as (images & Hrun & _).
      congruence.
    + destruct (cloudToImage_filled junk64 junk8 cloud Hvalid (or_introl Hw1)
                  Hw Hh Hfit Hfit3) as (images & Hrun & _).
      congruence.
  - intros [Hw1 Hh1]. by apply cloudToImage_single_point.
Qed.

(** C2, the code at a cloud of one row: three points with height 1 and
    width 3, which is how PCL keeps an unorganised cloud.  The claim has
    the call fail with [DegenerateCloud]; the first assertion, written
    under the comment that it checks for a structured cloud, lets the
    cloud through and the call returns matrices of one row and three
    columns. *)
Theorem cloudToImage_accepts_single_row :
  pcl.valid Samples.cloud3x1 /\
  pcl.width Samples.cloud3x1 = 3 /\
  pcl.height Samples.cloud3x1 = 1 /\
  (exists position_image color_image,
     cloudToImage Samples.junk64 Samples.junk8 Samples.cloud3x1 =
       Ok (position_image, color_image) /\
     cv.rows color_image = 1 /\ cv.cols color_image = 3 /\
     cv.rows position_image = 1 /\ cv.cols position_image = 3) /\
  cloudToImage Samples.junk64 Samples.junk8 Samples.cloud3x1 <>
    Err DegenerateCloud.
Proof.
  split; [solve_valid |]. do 2 (split; [reflexivity |]). split.
  - do 2 eexists. split; [vm_compute; reflexivity |]. cbn. auto.
  - vm_compute. discriminate.
Qed.

(** ** Instances at the sample inputs *)




Lemma imageToCloud_shape_mismatch_witness :
  imageToCloud Samples.color10x10 Samples.position10x9 Samples.header =
    Err ShapeMismatch.
Proof.
  apply imageToCloud_shape_mismatch. right. cbn. lia.
Defined.



Lemma applyMask_elementwise_witness :
  exists masked_image,
    applyMask_any (cv.mkAny cv.D64F Samples.doubles2x2)
                  (cv.mkAny cv.D64F Samples.ones64_2x2) =
      Ok (true, cv.mkAny cv.D64F masked_image) /\
    masked_image = Samples.doubles2x2.
Proof.
  destruct (applyMask_elementwise cv.D64F Samples.doubles2x2 Samples.ones64_2x2)
    as (masked & Hrun & _ & _ & _ & _ & _ & Hone & _).
  - solve_valid.
  - solve_valid.
  - intros a Ha. cbn [Samples.doubles2x2 cv.data] in Ha.
    repeat (apply elem_of_cons in Ha as [-> | Ha]; [reflexivity |]).
    by apply elem_of_nil in Ha.
  - reflexivity.
  - reflexivity.
  - reflexivity.
  - exists masked. split; [exact Hrun |]. apply Hone.
    intros m Hm. cbn [Samples.ones64_2x2 cv.data] in Hm.
    by apply elem_of_replicate in Hm as [-> _].
Defined.

Lemma applyMask_flag_witness :
  exists masked_image,
    applyMask_any (cv.mkAny cv.D8U Samples.gray2x3)
                  (cv.mkAny cv.D8U Samples.zeros2x3) = Ok (true, masked_image).
Proof.
  apply (applyMask_flag (cv.mkAny cv.D8U Samples.gray2x3)
           (cv.mkAny cv.D8U Samples.zeros2x3)); reflexivity.
Defined.

(** ** Where the documentation and the code part *)

(** The same at a cloud of one column, width 1 and height 3: the first
    assertion lets it through and the call returns matrices of three rows
    and one column. *)
Lemma cloudToImage_accepts_single_column :
  pcl.valid Samples.cloud1x3 /\
  pcl.width Samples.cloud1x3 <= 1 /\
  (exists position_image color_image,
     cloudToImage Samples.junk64 Samples.junk8 Samples.cloud1x3 =
       Ok (position_image, color_image) /\
     cv.rows color_image = 3 /\ cv.cols color_image = 1) /\
  cloudToImage Samples.junk64 Samples.junk8 Samples.cloud1x3 <>
    Err DegenerateCloud.
Proof.
  split; [solve_valid |]. split; [cbn; lia |]. split.
  - do 2 eexists. split; [vm_compute; reflexivity |]. cbn. auto.
  - vm_compute. discriminate.
Qed.

(** C8 at a matrix of doubles: under a mask of zeros the infinite cell and
    the NaN cell give NaN, not zero.  And at a matrix of bytes under a
    mask of twos: the product of 200 and 2 is the byte 255. *)
Lemma applyMask_zero_mask_not_zero :
  applyMask_any (cv.mkAny cv.D8U Samples.gray2x3)
                (cv.mkAny cv.D8U Samples.twos2x3) =
    Ok (true, cv.mkAny cv.D8U
                (cv.mkMat 2 3 1 [x02; x04; x06; x08; x0a; xff])) /\
  uchar_to_Z xc8 * uchar_to_Z x02 = 400 /\
  cv.valid Samples.doubles2x2 /\ cv.valid Samples.zeros64_2x2 /\
  (forall m, m ∈ cv.data Samples.zeros64_2x2 -> m = S754_zero false) /\
  applyMask_any (cv.mkAny cv.D64F Samples.doubles2x2)
                (cv.mkAny cv.D64F Samples.zeros64_2x2) =
    Ok (true, cv.mkAny cv.D64F
                (cv.mkMat 2 2 1 [S754_zero false; S754_zero true;
                                 S754_nan; S754_nan])) /\
  ~ (forall masked_image : cv.Mat spec_float,
       applyMask_any (cv.mkAny cv.D64F Samples.doubles2x2)
                     (cv.mkAny cv.D64F Samples.zeros64_2x2) =
         Ok (true, cv.mkAny cv.D64F masked_image) ->
       forall v, v ∈ cv.data masked_image ->
         v = S754_zero false \/ v = S754_zero true).
Proof.
  split; [reflexivity |]. split; [reflexivity |].
  split; [solve_valid |].
  split; [solve_valid |].
  split.
  { intros m Hm. cbn [Samples.zeros64_2x2 cv.data] in Hm.
    by apply elem_of_replicate in Hm as [-> _]. }
  split; [reflexivity |].
  intros Hall.
  destruct (Hall (cv.mkMat 2 2 1 [S754_zero false; S754_zero true;
                                  S754_nan; S754_nan]) eq_refl S754_nan)
    as [Hz | Hz]; [| discriminate Hz | discriminate Hz].
  cbn. do 2 apply list_elem_of_further. apply list_elem_of_here.
Qed.

(** C10 at a 2x3 matrix and a 3x2 mask of bytes, and at the 2x3 matrix of
    bytes and a 2x3 mask of doubles: the product raises, no flag is
    returned. *)
Lemma applyMask_mismatch_raises :
  applyMask_any (cv.mkAny cv.D8U Samples.gray2x3)
                (cv.mkAny cv.D8U Samples.ones3x2) = Err StsUnmatchedSizes /\
  applyMask_any (cv.mkAny cv.D8U Samples.gray2x3)
                (cv.mkAny cv.D64F Samples.ones64_2x3) = Err StsBadArg /\
  ~ (exists masked_image,
       applyMask_any (cv.mkAny cv.D8U Samples.gray2x3)
                     (cv.mkAny cv.D8U Samples.ones3x2) = Ok (true, masked_image)) /\
  ~ (exists masked_image,
       applyMask_any (cv.mkAny cv.D8U Samples.gray2x3)
                     (cv.mkAny cv.D64F Samples.ones64_2x3) =
         Ok (true, masked_image)).
Proof.
  split; [reflexivity |]. split; [reflexivity |].
  split; intros [masked Hrun]; discriminate Hrun.
Qed.

(** * Further properties *)

(** ** type2str: what the label tells *)

Lemma type2str_unfold (type : Z) :
  type2str type =
    depth2str (type mod 8) +:+ "C" +:+ to_string ((type / 8) mod 512 + 1).
Proof.
  unfold type2str. cbn zeta. rewrite CV_MAT_DEPTH_mod, CV_MAT_CN_mod.
  apply string_app_assoc.
Qed.

(** Replaces [depth2str] at a literal depth by the label it evaluates to. *)
Ltac eval_depth2str H :=
  repeat match type of H with
         | context [depth2str ?d] =>
             let s := eval vm_compute in (depth2str d) in
             change (depth2str d) with s in H
         end.

Lemma depth2str_label_inj (d1 d2 : Z) (s1 s2 : string) :
  0 <= d1 < 8 -> 0 <= d2 < 8 ->
  depth2str d1 +:+ "C" +:+ s1 = depth2str d2 +:+ "C" +:+ s2 ->
  d1 = d2 /\ s1 = s2.
Proof.
  intros H1 H2 Heq.
  assert (d1 = 0 \/ d1 = 1 \/ d1 = 2 \/ d1 = 3 \/ d1 = 4 \/ d1 = 5 \/
          d1 = 6 \/ d1 = 7) as Hd1 by lia.
  assert (d2 = 0 \/ d2 = 1 \/ d2 = 2 \/ d2 = 3 \/ d2 = 4 \/ d2 = 5 \/
          d2 = 6 \/ d2 = 7) as Hd2 by lia.
  destruct Hd1 as [-> | [-> | [-> | [-> | [-> | [-> | [-> | ->]]]]]]];
    destruct Hd2 as [-> | [-> | [-> | [-> | [-> | [-> | [-> | ->]]]]]]];
    eval_depth2str Heq; cbv [String.append] in Heq;
    first [discriminate Heq | by injection Heq].
Qed.

(** X2. Two type codes get the same label exactly when they agree on their
    twelve low bits, the depth tag and the channel count: the label tells
    the two apart from any other pair, and no higher bit of the code
    changes it. *)
Theorem type2str_same_label (type1 type2 : Z) :
  type2str type1 = type2str type2 <-> type1 mod 4096 = type2 mod 4096.
Proof.
  rewrite !type2str_unfold. split.
  - intros Heq.
    apply depth2str_label_inj in Heq as [Hd Hn];
      [| apply Z.mod_pos_bound; lia | apply Z.mod_pos_bound; lia].
    apply (inj pretty) in Hn.
    Z.div_mod_to_equations. lia.
  - intros Heq.
    assert (type1 mod 8 = type2 mod 8) as -> by (Z.div_mod_to_equations; lia).
    assert ((type1 / 8) mod 512 = (type2 / 8) mod 512) as ->
      by (Z.div_mod_to_equations; lia).
    reflexivity.
Qed.

(** ** Loops that stop early, loops that do nothing *)

(** A loop whose body can only fail with [e] can only fail with [e]. *)
Lemma for_from_errors {St : Type} (body : Z -> St -> result St) (e : error)
    (n : nat) :
  (forall j t e', body j t = Err e' -> e' = e) ->
  forall (i : Z) (s : St) (e' : error),
    for_from i n body s = Err e' -> e' = e.
Proof.
  intros Hbody. induction n as [| n IH]; intros i s e' Hrun.
  - discriminate Hrun.
  - cbn [for_from] in Hrun.
    destruct (body i s) as [t |] eqn:Hstep; cbn [bind] in Hrun.
    + by apply (IH (i + 1) t).
    + injection Hrun as <-. by apply (Hbody i s).
Qed.

(** A loop whose body fails with [e] at some index of its range, whatever
    the state, and can fail with nothing else, fails with [e]. *)
Lemma for_from_some_fail {St : Type} (body : Z -> St -> result St) (e : error)
    (k : Z) (n : nat) :
  (forall t, body k t = Err e) ->
  (forall j t e', body j t = Err e' -> e' = e) ->
  forall (i : Z) (s : St),
    i <= k < i + Z.of_nat n -> for_from i n body s = Err e.
Proof.
  intros Hk Hbody. induction n as [| n IH]; intros i s Hi; [lia |].
  cbn [for_from].
  destruct (Z.eq_dec i k) as [-> | Hne]; [by rewrite Hk |].
  destruct (body i s) as [t |] eqn:Hstep; cbn [bind].
  - apply IH. lia.
  - f_equal. by apply (Hbody i s).
Qed.

(** A loop whose body leaves the state alone leaves the state alone. *)
Lemma for_from_skip {St : Type} (body : Z -> St -> result St) (n : nat) :
  (forall j t, body j t = Ok t) ->
  forall (i : Z) (s : St), for_from i n body s = Ok s.
Proof.
  intros Hbody. induction n as [| n IH]; intros i s; [reflexivity |].
  cbn [for_from]. rewrite Hbody. cbn [bind]. apply IH.
Qed.

(** What every successful iteration keeps, a successful loop keeps. *)
Lemma for_from_preserves {St : Type} (P : St -> Prop)
    (body : Z -> St -> result St) (n : nat) :
  (forall j t t', P t -> body j t = Ok t' -> P t') ->
  forall (i : Z) (s s' : St),
    P s -> for_from i n body s = Ok s' -> P s'.
Proof.
  intros Hbody. induction n as [| n IH]; intros i s s' Hs Hrun.
  - injection Hrun as <-. exact Hs.
  - cbn [for_from] in Hrun.
    destruct (body i s) as [t |] eqn:Hstep; cbn [bind] in Hrun;
      [| discriminate Hrun].
    apply (IH (i + 1) t s'); [| exact Hrun]. by apply (Hbody i s).
Qed.

(** ** Matrix accesses fail in one way *)

Lemma offset_error {T : Type} (m : cv.Mat T) (i0 i1 width : Z) (e : error) :
  cv.offset m i0 i1 width = Err e -> e = OutOfBounds.
Proof.
  unfold cv.offset, assert.
  destruct ((0 <=? i0) && (i0 <? cv.rows m)); cbn [bind];
    [| by intros [= <-]].
  destruct ((0 <=? i1 * width) && (i1 * width <? cv.cols m * cv.channels m));
    cbn [bind]; [discriminate | by intros [= <-]].
Qed.

Lemma load_error {T : Type} (m : cv.Mat T) (i : nat) (e : error) :
  cv.load m i = Err e -> e = OutOfBounds.
Proof. unfold cv.load. destruct (cv.data m !! i); [discriminate | by intros [= <-]]. Qed.

Lemma store_error {T : Type} (m : cv.Mat T) (i : nat) (v : T) (e : error) :
  cv.store m i v = Err e -> e = OutOfBounds.
Proof.
  unfold cv.store, assert.
  destruct (i <? length (cv.data m))%nat; cbn [bind];
    [discriminate | by intros [= <-]].
Qed.

Lemma at_error {T : Type} (m : cv.Mat T) (i0 i1 : Z) (e : error) :
  cv.at_ m i0 i1 = Err e -> e = OutOfBounds.
Proof.
  unfold cv.at_. destruct (cv.offset m i0 i1 1) as [i |] eqn:Hoff; cbn [bind].
  - apply load_error.
  - intros [= <-]. by apply offset_error in Hoff.
Qed.

Lemma at_put_error {T : Type} (m : cv.Mat T) (i0 i1 : Z) (v : T) (e : error) :
  cv.at_put m i0 i1 v = Err e -> e = OutOfBounds.
Proof.
  unfold cv.at_put. destruct (cv.offset m i0 i1 1) as [i |] eqn:Hoff; cbn [bind].
  - apply store_error.
  - intros [= <-]. by apply offset_error in Hoff.
Qed.

Lemma at_Vec3_error {T : Type} (m : cv.Mat T) (pt : cv.Point) (e : error) :
  cv.at_Vec3 m pt = Err e -> e = OutOfBounds.
Proof.
  unfold cv.at_Vec3.
  destruct (cv.offset m (cv.py pt) (cv.px pt) 3) as [i |] eqn:Hoff; cbn [bind];
    [| intros [= <-]; by apply offset_error in Hoff].
  destruct (cv.load m i) as [a |] eqn:Ha; cbn [bind];
    [| intros [= <-]; by apply load_error in Ha].
  destruct (cv.load m (i + 1)) as [b |] eqn:Hb; cbn [bind];
    [| intros [= <-]; by apply load_error in Hb].
  destruct (cv.load m (i + 2)) as [c |] eqn:Hc; cbn [bind];
    [discriminate | intros [= <-]; by apply load_error in Hc].
Qed.

Lemma at_Vec3_put_error {T : Type} (m : cv.Mat T) (pt : cv.Point)
    (v : cv.Vec3 T) (e : error) :
  cv.at_Vec3_put m pt v = Err e -> e = OutOfBounds.
Proof.
  unfold cv.at_Vec3_put.
  destruct (cv.offset m (cv.py pt) (cv.px pt) 3) as [i |] eqn:Hoff; cbn [bind];
    [| intros [= <-]; by apply offset_error in Hoff].
  destruct (cv.store m i (cv.v0 v)) as [m1 |] eqn:H1; cbn [bind];
    [| intros [= <-]; by apply store_error in H1].
  destruct (cv.store m1 (i + 1) (cv.v1 v)) as [m2 |] eqn:H2; cbn [bind];
    [| intros [= <-]; by apply store_error in H2].
  apply store_error.
Qed.

Lemma points_at_error `{FloatOps} (cloud : pcl.PointCloud) (i : Z) (e : error) :
  pcl.points_at cloud i = Err e -> e = OutOfBounds.
Proof.
  unfold pcl.points_at, assert.
  destruct (0 <=? i); cbn [bind]; [| by intros [= <-]].
  destruct (pcl.points cloud !! Z.to_nat i); [discriminate | by intros [= <-]].
Qed.

Lemma points_at_outside `{FloatOps} (cloud : pcl.PointCloud) (i : Z) :
  i < 0 \/ Z.of_nat (length (pcl.points cloud)) <= i ->
  pcl.points_at cloud i = Err OutOfBounds.
Proof.
  intros Hout. unfold pcl.points_at, assert.
  destruct (Z.leb_spec 0 i); cbn [bind]; [| reflexivity].
  rewrite lookup_ge_None_2 by lia. reflexivity.
Qed.

Lemma offset_negative {T : Type} (m : cv.Mat T) (i0 i1 : Z) :
  i1 < 0 -> cv.offset m i0 i1 1 = Err OutOfBounds.
Proof.
  intros Hneg. unfold cv.offset, assert.
  destruct ((0 <=? i0) && (i0 <? cv.rows m)); cbn [bind]; [| reflexivity].
  assert ((0 <=? i1 * 1) && (i1 * 1 <? cv.cols m * cv.channels m) = false) as ->.
  { apply andb_false_iff. left. apply Z.leb_gt. lia. }
  reflexivity.
Qed.

Lemma at_negative {T : Type} (m : cv.Mat T) (i0 i1 : Z) :
  i1 < 0 -> cv.at_ m i0 i1 = Err OutOfBounds.
Proof. intros Hneg. unfold cv.at_. by rewrite offset_negative. Qed.

Lemma at_put_negative {T : Type} (m : cv.Mat T) (i0 i1 : Z) (v : T) :
  i1 < 0 -> cv.at_put m i0 i1 v = Err OutOfBounds.
Proof. intros Hneg. unfold cv.at_put. by rewrite offset_negative. Qed.

(** Two lists of three-scalar cells that agree cell by cell are equal. *)
Lemma cells_determine {T : Type} (l1 l2 : list T) (n : Z) :
  Z.of_nat (length l1) = n * 3 -> Z.of_nat (length l2) = n * 3 ->
  (forall c k, 0 <= c < n -> 0 <= k < 3 ->
     l1 !! Z.to_nat (c * 3 + k) = l2 !! Z.to_nat (c * 3 + k)) ->
  l1 = l2.
Proof.
  intros Hl1 Hl2 Hcells. apply list_eq. intros i.
  destruct (Z_lt_dec (Z.of_nat i) (n * 3)) as [Hi | Hi].
  - pose proof (Z.div_mod (Z.of_nat i) 3 ltac:(lia)) as Hdm.
    pose proof (Z.mod_pos_bound (Z.of_nat i) 3 ltac:(lia)) as Hk.
    assert (0 <= Z.of_nat i / 3 < n) as Hc.
    { split; [apply Z.div_pos; lia | apply Z.div_lt_upper_bound; lia]. }
    specialize (Hcells (Z.of_nat i / 3) (Z.of_nat i mod 3) Hc Hk).
    by replace (Z.to_nat (Z.of_nat i / 3 * 3 + Z.of_nat i mod 3)) with i
      in Hcells by lia.
  - rewrite !lookup_ge_None_2 by lia. reflexivity.
Qed.

Section MoreConversionProperties.

Context `{FloatOps}.

(** ** cloudToImage: its failures and what its result depends on *)

Lemma cloudToImage_overflow (junk64 : nat -> float64) (junk8 : nat -> uchar)
    (cloud : pcl.PointCloud) :
  pcl.width cloud <> 1 \/ pcl.height cloud <> 1 ->
  INT_MAX <= pcl.width cloud \/ INT_MAX <= pcl.height cloud ->
  cloudToImage junk64 junk8 cloud = Err DimensionOverflow.
Proof.
  intros Hnd Hbig. unfold cloudToImage.
  assert (negb (pcl.width cloud =? 1) || negb (pcl.height cloud =? 1) = true)
    as ->.
  { apply orb_true_iff.
    destruct Hnd; [left | right]; apply negb_true_iff, Z.eqb_neq; done. }
  assert ((pcl.width cloud <? INT_MAX) && (pcl.height cloud <? INT_MAX) = false)
    as ->.
  { apply andb_false_iff.
    destruct Hbig; [left | right]; apply Z.ltb_ge; done. }
  reflexivity.
Qed.

Lemma cloudToImage_body_error (cloud : pcl.PointCloud) (cols y x : Z)
    (images : cv.Mat float64 * cv.Mat uchar) (e : error) :
  cloudToImage_body cloud cols y x images = Err e -> e = OutOfBounds.
Proof.
  unfold cloudToImage_body.
  destruct (pcl.points_at cloud (int_add (int_mul y cols) x)) as [p |] eqn:Hp;
    cbn [bind].
  - destruct (cv.at_put images.1 y (int_add (int_mul x 3) 0) (to_double (pcl.x p)))
      as [m1 |] eqn:H1; cbn [bind];
      [| intros [= <-]; by apply at_put_error in H1].
    destruct (cv.at_put m1 y (int_add (int_mul x 3) 1) (to_double (pcl.y p)))
      as [m2 |] eqn:H2; cbn [bind];
      [| intros [= <-]; by apply at_put_error in H2].
    destruct (cv.at_put m2 y (int_add (int_mul x 3) 2) (to_double (pcl.z p)))
      as [m3 |] eqn:H3; cbn [bind];
      [| intros [= <-]; by apply at_put_error in H3].
    destruct (cv.at_Vec3_put images.2 (cv.mkPoint x y)
                (cv.mkVec3 (pcl.b p) (pcl.g p) (pcl.r p)))
      as [c1 |] eqn:H4; cbn [bind];
      [discriminate | intros [= <-]; by apply at_Vec3_put_error in H4].
  - intros [= <-]. by apply points_at_error in Hp.
Qed.

(** An iteration whose index into [points] is negative, as it is after
    the [int] has wrapped, or past the end of [points], fails. *)
Lemma cloudToImage_body_past_end (cloud : pcl.PointCloud) (cols y x : Z)
    (images : cv.Mat float64 * cv.Mat uchar) :
  int_add (int_mul y cols) x < 0 \/
  Z.of_nat (length (pcl.points cloud)) <= int_add (int_mul y cols) x ->
  cloudToImage_body cloud cols y x images = Err OutOfBounds.
Proof.
  intros Hout. unfold cloudToImage_body.
  by rewrite points_at_outside.
Qed.

(** An iteration whose scalar index [x * 3 + 2] has wrapped fails, whatever
    the matrices hold. *)
Lemma cloudToImage_body_wraps (cloud : pcl.PointCloud) (cols y x : Z)
    (images : cv.Mat float64 * cv.Mat uchar) :
  x * 3 + 2 = 2 ^ 31 ->
  cloudToImage_body cloud cols y x images = Err OutOfBounds.
Proof.
  intros Hwrap.
  destruct (cloudToImage_body cloud cols y x images) as [images' | e] eqn:Hrun;
    [| f_equal; by apply cloudToImage_body_error in Hrun].
  exfalso. revert Hrun. unfold cloudToImage_body.
  destruct (pcl.points_at cloud _) as [p |]; cbn [bind]; [| discriminate].
  destruct (cv.at_put images.1 y _ _) as [m1 |]; cbn [bind]; [| discriminate].
  destruct (cv.at_put m1 y _ _) as [m2 |]; cbn [bind]; [| discriminate].
  rewrite (int_index_wraps x 3 2) by lia.
  rewrite at_put_negative by lia. discriminate.
Qed.

(** X5. [cloudToImage] takes the number of points from [width] and
    [height] and never looks at the size of [points]: for a cloud that
    passes both assertions and holds fewer than [width * height] points,
    the loops index [points] past its end. *)
Theorem cloudToImage_short_points (junk64 : nat -> float64)
    (junk8 : nat -> uchar) (cloud : pcl.PointCloud) :
  pcl.width cloud <> 1 \/ pcl.height cloud <> 1 ->
  0 <= pcl.width cloud < INT_MAX -> 0 <= pcl.height cloud < INT_MAX ->
  Z.of_nat (length (pcl.points cloud)) < pcl.width cloud * pcl.height cloud ->
  cloudToImage junk64 junk8 cloud = Err OutOfBounds.
Proof.
  intros Hnd Hw Hh Hshort.
  set (w := pcl.width cloud) in *. set (h := pcl.height cloud) in *.
  set (n0 := Z.of_nat (length (pcl.points cloud))) in *.
  unfold cloudToImage. fold w h.
  assert (negb (w =? 1) || negb (h =? 1) = true) as ->.
  { apply orb_true_iff.
    destruct Hnd; [left | right]; apply negb_true_iff, Z.eqb_neq; done. }
  assert ((w <? INT_MAX) && (h <? INT_MAX) = true) as ->.
  { apply andb_true_iff. split; apply Z.ltb_lt; lia. }
  cbn [assert bind].
  assert (int_of_uint32 w = w) as ->.
  { unfold int_of_uint32. unfold INT_MAX in Hw.
    destruct (Z.ltb_spec w (2 ^ 31)); lia. }
  assert (int_of_uint32 h = h) as ->.
  { unfold int_of_uint32. unfold INT_MAX in Hh.
    destruct (Z.ltb_spec h (2 ^ 31)); lia. }
  unfold cv.create. cbn [cv.rows cv.cols]. unfold for_range.
  assert (0 < w) as Hwpos by nia.
  assert (exists k, 0 <= k < w * h /\ (k = n0 /\ n0 <= INT_MAX \/
                                       k = 2 ^ 31 /\ INT_MAX < n0))
    as (k & Hk & Hcase).
  { destruct (Z_le_gt_dec n0 INT_MAX).
    - exists n0. lia.
    - exists (2 ^ 31). unfold INT_MAX in *. lia. }
  pose proof (Z.div_mod k w ltac:(lia)) as Hdm.
  pose proof (Z.mod_pos_bound k w Hwpos) as Hx0.
  assert (0 <= k / w < h) as Hy0.
  { split; [apply Z.div_pos; lia | apply Z.div_lt_upper_bound; lia]. }
  apply (for_from_some_fail _ OutOfBounds (k / w)).
  - intros images. apply (for_from_some_fail _ OutOfBounds (k mod w)).
    + intros images'. apply cloudToImage_body_past_end. fold n0.
      destruct Hcase as [[-> Hfit] | [-> Hwrap]].
      * right. rewrite int_index by lia. lia.
      * left. rewrite int_index_wraps; lia.
    + intros x t e'. apply cloudToImage_body_error.
    + lia.
  - intros y t e'. apply for_from_errors.
    intros x t' e''. apply cloudToImage_body_error.
  - lia.
Qed.

(** X4. For a cloud that holds [width * height] points, the indices
    [y * width + x] and [x * 3 + k] of the loops fitting an [int], the two
    assertions are the only way [cloudToImage] fails: it never reads
    outside [points] or writes outside a matrix, it ends at the first
    assertion exactly for the 1x1 cloud, at the second exactly when a
    dimension does not fit an [int], and returns the two matrices in every
    other case. *)
Theorem cloudToImage_outcome (junk64 : nat -> float64) (junk8 : nat -> uchar)
    (cloud : pcl.PointCloud) :
  pcl.valid cloud ->
  pcl.width cloud * pcl.height cloud <= INT_MAX ->
  3 * pcl.width cloud <= INT_MAX ->
  cloudToImage junk64 junk8 cloud <> Err OutOfBounds /\
  ((pcl.width cloud = 1 /\ pcl.height cloud = 1 /\
    cloudToImage junk64 junk8 cloud = Err DegenerateCloud) \/
   ((pcl.width cloud <> 1 \/ pcl.height cloud <> 1) /\
    (INT_MAX <= pcl.width cloud \/ INT_MAX <= pcl.height cloud) /\
    cloudToImage junk64 junk8 cloud = Err DimensionOverflow) \/
   ((pcl.width cloud <> 1 \/ pcl.height cloud <> 1) /\
    pcl.width cloud < INT_MAX /\ pcl.height cloud < INT_MAX /\
    exists position_image color_image,
      cloudToImage junk64 junk8 cloud = Ok (position_image, color_image))).
Proof.
  intros Hvalid Hfit Hfit3.
  assert ((pcl.width cloud = 1 /\ pcl.height cloud = 1) \/
          (pcl.width cloud <> 1 \/ pcl.height cloud <> 1)) as [[Hw1 Hh1] | Hnd]
    by lia.
  - pose proof (cloudToImage_single_point junk64 junk8 cloud Hw1 Hh1) as Hrun.
    split; [congruence |]. left. auto.
  - assert ((INT_MAX <= pcl.width cloud \/ INT_MAX <= pcl.height cloud) \/
            (pcl.width cloud < INT_MAX /\ pcl.height cloud < INT_MAX))
      as [Hbig | [Hw Hh]] by lia.
    + pose proof (cloudToImage_overflow junk64 junk8 cloud Hnd Hbig) as Hrun.
      split; [congruence |]. right. left. auto.
    + destruct (cloudToImage_filled junk64 junk8 cloud Hvalid Hnd Hw Hh
                  Hfit Hfit3) as ([pos col] & Hrun & _).
      split; [congruence |]. right. right. eauto 10.
Qed.

(** X16. Where an index does not fit: for a cloud that passes both
    assertions and has a row, with a last point index
    [width * height - 1] or a last scalar index [3 * width - 1] above
    [INT_MAX], the loops reach an iteration whose index has left the range
    of [int], and the call has no result. *)
Theorem cloudToImage_index_overflow (junk64 : nat -> float64)
    (junk8 : nat -> uchar) (cloud : pcl.PointCloud) :
  pcl.width cloud <> 1 \/ pcl.height cloud <> 1 ->
  0 <= pcl.width cloud < INT_MAX -> 0 < pcl.height cloud < INT_MAX ->
  INT_MAX < pcl.width cloud * pcl.height cloud - 1 \/
  INT_MAX < 3 * pcl.width cloud - 1 ->
  cloudToImage junk64 junk8 cloud = Err OutOfBounds.
Proof.
  intros Hnd Hw Hh Hbig.
  set (w := pcl.width cloud) in *. set (h := pcl.height cloud) in *.
  unfold cloudToImage. fold w h.
  assert (negb (w =? 1) || negb (h =? 1) = true) as ->.
  { apply orb_true_iff.
    destruct Hnd; [left | right]; apply negb_true_iff, Z.eqb_neq; done. }
  assert ((w <? INT_MAX) && (h <? INT_MAX) = true) as ->.
  { apply andb_true_iff. split; apply Z.ltb_lt; lia. }
  cbn [assert bind].
  assert (int_of_uint32 w = w) as ->.
  { unfold int_of_uint32. unfold INT_MAX in Hw.
    destruct (Z.ltb_spec w (2 ^ 31)); lia. }
  assert (int_of_uint32 h = h) as ->.
  { unfold int_of_uint32. unfold INT_MAX in Hh.
    destruct (Z.ltb_spec h (2 ^ 31)); lia. }
  unfold cv.create. cbn [cv.rows cv.cols]. unfold for_range.
  unfold INT_MAX in *.
  assert (0 < w) as Hwpos by nia.
  assert (forall y t e',
            for_from 0 (Z.to_nat (w - 0))
              (fun x images => cloudToImage_body cloud w y x images) t = Err e' ->
            e' = OutOfBounds) as Hrow.
  { intros y t e'. apply for_from_errors.
    intros x t' e''. apply cloudToImage_body_error. }
  destruct (Z_le_gt_dec (3 * w) (2 ^ 31 - 1)) as [Hfit3 | Hwrap3].
  - assert (2 ^ 31 < w * h) as Hlong by lia.
    pose proof (Z.div_mod (2 ^ 31) w ltac:(lia)) as Hdm.
    pose proof (Z.mod_pos_bound (2 ^ 31) w Hwpos) as Hx0.
    assert (0 <= 2 ^ 31 / w < h) as Hy0.
    { split; [apply Z.div_pos; lia | apply Z.div_lt_upper_bound; lia]. }
    apply (for_from_some_fail _ OutOfBounds (2 ^ 31 / w)); [| exact Hrow | lia].
    intros images. apply (for_from_some_fail _ OutOfBounds (2 ^ 31 mod w)).
    + intros images'. apply cloudToImage_body_past_end.
      left. rewrite int_index_wraps; lia.
    + intros x t e'. apply cloudToImage_body_error.
    + lia.
  - apply (for_from_some_fail _ OutOfBounds 0); [| exact Hrow | lia].
    intros images. apply (for_from_some_fail _ OutOfBounds 715827882).
    + intros images'. apply cloudToImage_body_wraps. lia.
    + intros x t e'. apply cloudToImage_body_error.
    + lia.
Qed.

(** Two filled pairs of matrices for clouds whose points have the same
    positions and colours are the same pair. *)
Lemma filled_ext (cloud1 cloud2 : pcl.PointCloud) (h w : Z)
    (images1 images2 : cv.Mat float64 * cv.Mat uchar) :
  Z.of_nat (length (pcl.points cloud1)) = h * w ->
  Z.of_nat (length (pcl.points cloud2)) = h * w ->
  (forall i p1 p2,
     pcl.points cloud1 !! i = Some p1 -> pcl.points cloud2 !! i = Some p2 ->
     pcl.x p1 = pcl.x p2 /\ pcl.y p1 = pcl.y p2 /\ pcl.z p1 = pcl.z p2 /\
     pcl.r p1 = pcl.r p2 /\ pcl.g p1 = pcl.g p2 /\ pcl.b p1 = pcl.b p2) ->
  filled cloud1 h w (h * w) images1 -> filled cloud2 h w (h * w) images2 ->
  images1 = images2.
Proof.
  intros Hl1 Hl2 Hsame (Hp1 & Hc1 & Hcells1) (Hp2 & Hc2 & Hcells2).
  destruct images1 as [[pr1 pc1 pn1 pd1] [cr1 cc1 cn1 cd1]].
  destruct images2 as [[pr2 pc2 pn2 pd2] [cr2 cc2 cn2 cd2]].
  unfold shaped in *. cbn [fst snd cv.rows cv.cols cv.channels cv.data] in *.
  destruct Hp1 as (-> & -> & -> & Hlp1). destruct Hp2 as (-> & -> & -> & Hlp2).
  destruct Hc1 as (-> & -> & -> & Hlc1). destruct Hc2 as (-> & -> & -> & Hlc2).
  assert (forall c, 0 <= c < h * w ->
            exists p1 p2, pcl.points cloud1 !! Z.to_nat c = Some p1 /\
                          pcl.points cloud2 !! Z.to_nat c = Some p2) as Hpts.
  { intros c Hc.
    destruct (lookup_lt_is_Some_2 (pcl.points cloud1) (Z.to_nat c)) as [p1 ?];
      [lia |].
    destruct (lookup_lt_is_Some_2 (pcl.points cloud2) (Z.to_nat c)) as [p2 ?];
      [lia |].
    eauto. }
  f_equal; f_equal; apply (cells_determine _ _ (h * w)); try assumption;
    intros c k Hc Hk; destruct (Hpts c Hc) as (p1 & p2 & Hq1 & Hq2);
    destruct (Hsame _ _ _ Hq1 Hq2) as (Hx & Hy & Hz & Hr & Hg & Hb);
    destruct (Hcells1 c p1 Hc Hq1) as (A0 & A1 & A2 & B0 & B1 & B2);
    destruct (Hcells2 c p2 Hc Hq2) as (A0' & A1' & A2' & B0' & B1' & B2');
    assert (k = 0 \/ k = 1 \/ k = 2) as [-> | [-> | ->]] by lia;
    congruence.
Qed.

(** X3. Every scalar of both matrices is written: for a cloud that holds
    [width * height] points, the indices of the loops fitting an [int],
    what [cloudToImage] returns does not depend on what the two freshly
    allocated matrices held. *)
Theorem cloudToImage_overwrites (junk64 junk64' : nat -> float64)
    (junk8 junk8' : nat -> uchar) (cloud : pcl.PointCloud) :
  pcl.valid cloud ->
  pcl.width cloud * pcl.height cloud <= INT_MAX ->
  3 * pcl.width cloud <= INT_MAX ->
  cloudToImage junk64 junk8 cloud = cloudToImage junk64' junk8' cloud.
Proof.
  intros Hvalid Hfit Hfit3.
  assert ((pcl.width cloud = 1 /\ pcl.height cloud = 1) \/
          (pcl.width cloud <> 1 \/ pcl.height cloud <> 1)) as [[Hw1 Hh1] | Hnd]
    by lia.
  { by rewrite !cloudToImage_single_point. }
  assert ((INT_MAX <= pcl.width cloud \/ INT_MAX <= pcl.height cloud) \/
          (pcl.width cloud < INT_MAX /\ pcl.height cloud < INT_MAX))
    as [Hbig | [Hw Hh]] by lia.
  { by rewrite !cloudToImage_overflow. }
  destruct (cloudToImage_filled junk64 junk8 cloud Hvalid Hnd Hw Hh Hfit Hfit3)
    as (images & -> & Hfilled).
  destruct (cloudToImage_filled junk64' junk8' cloud Hvalid Hnd Hw Hh Hfit Hfit3)
    as (images' & -> & Hfilled').
  f_equal. destruct Hvalid as (_ & _ & Hlen).
  apply (filled_ext cloud cloud (pcl.height cloud) (pcl.width cloud));
    try assumption; try lia.
  intros i p1 p2 Hp1 Hp2. rewrite Hp1 in Hp2. injection Hp2 as <-. auto 10.
Qed.

(** X12. [cloudToImage] reads the dimensions of the cloud and the x, y, z,
    r, g, b of its points, nothing else: two clouds of [width * height]
    points with the same dimensions (the indices of the loops fitting an
    [int]) whose points agree on these six fields give the same result,
    whatever their headers, dense flags and alpha bytes are. *)
Theorem cloudToImage_reads (junk64 : nat -> float64) (junk8 : nat -> uchar)
    (cloud1 cloud2 : pcl.PointCloud) :
  pcl.valid cloud1 -> pcl.valid cloud2 ->
  pcl.width cloud1 = pcl.width cloud2 ->
  pcl.height cloud1 = pcl.height cloud2 ->
  pcl.width cloud1 * pcl.height cloud1 <= INT_MAX ->
  3 * pcl.width cloud1 <= INT_MAX ->
  (forall i p1 p2,
     pcl.points cloud1 !! i = Some p1 -> pcl.points cloud2 !! i = Some p2 ->
     pcl.x p1 = pcl.x p2 /\ pcl.y p1 = pcl.y p2 /\ pcl.z p1 = pcl.z p2 /\
     pcl.r p1 = pcl.r p2 /\ pcl.g p1 = pcl.g p2 /\ pcl.b p1 = pcl.b p2) ->
  cloudToImage junk64 junk8 cloud1 = cloudToImage junk64 junk8 cloud2.
Proof.
  intros Hv1 Hv2 Hwe Hhe Hfit Hfit3 Hsame.
  assert ((pcl.width cloud1 = 1 /\ pcl.height cloud1 = 1) \/
          (pcl.width cloud1 <> 1 \/ pcl.height cloud1 <> 1))
    as [[Hw1 Hh1] | Hnd] by lia.
  { rewrite !cloudToImage_single_point; congruence. }
  assert ((INT_MAX <= pcl.width cloud1 \/ INT_MAX <= pcl.height cloud1) \/
          (pcl.width cloud1 < INT_MAX /\ pcl.height cloud1 < INT_MAX))
    as [Hbig | [Hw Hh]] by lia.
  { rewrite !cloudToImage_overflow; try done; rewrite <- Hwe, <- Hhe; done. }
  destruct (cloudToImage_filled junk64 junk8 cloud1 Hv1 Hnd Hw Hh Hfit Hfit3)
    as (images1 & -> & Hf1).
  destruct (cloudToImage_filled junk64 junk8 cloud2 Hv2) as (images2 & -> & Hf2);
    [rewrite <- Hwe, <- Hhe; done | lia | lia | lia | lia |].
  f_equal. rewrite <- Hwe, <- Hhe in Hf2.
  destruct Hv1 as (_ & _ & Hl1). destruct Hv2 as (_ & _ & Hl2).
  apply (filled_ext cloud1 cloud2 (pcl.height cloud1) (pcl.width cloud1));
    try assumption; lia.
Qed.

End MoreConversionProperties.

Section ImageToCloudProperties.

Context `{FloatOps}.

(** ** imageToCloud: its points, its failures *)

(** X6. For two three-channel matrices of the same size (the scalar index
    [x * 3 + k] of a row fitting an [int]) [imageToCloud] returns
    [rows * cols] points in row-major order; the point of pixel [(y, x)]
    has for x, y, z the three doubles of that pixel of the position
    matrix, each cast to [float]. *)
Theorem imageToCloud_points (color_image : cv.Mat uchar)
    (position_image : cv.Mat float64) (header : pcl.PCLHeader) :
  cv.valid color_image -> cv.valid position_image ->
  cv.channels color_image = 3 -> cv.channels position_image = 3 ->
  cv.rows color_image = cv.rows position_image ->
  cv.cols color_image = cv.cols position_image ->
  3 * cv.cols color_image <= INT_MAX ->
  exists cloud,
    imageToCloud color_image position_image header = Ok cloud /\
    Z.of_nat (length (pcl.points cloud)) =
      cv.rows color_image * cv.cols color_image /\
    forall y x, 0 <= y < cv.rows color_image -> 0 <= x < cv.cols color_image ->
      exists (px py pz : float64) (p : pcl.PointXYZRGB),
        cv.at_ position_image y (x * 3 + 0) = Ok px /\
        cv.at_ position_image y (x * 3 + 1) = Ok py /\
        cv.at_ position_image y (x * 3 + 2) = Ok pz /\
        pcl.points cloud !! Z.to_nat (y * cv.cols color_image + x) = Some p /\
        pcl.x p = to_float px /\ pcl.y p = to_float py /\
        pcl.z p = to_float pz.
Proof.
  intros Hvc Hvp Hcc Hcp Hrows Hcols Hfit3.
  pose proof (valid_shaped _ Hvc Hcc) as Hsc.
  pose proof (valid_shaped _ Hvp Hcp) as Hsp.
  rewrite <- Hrows, <- Hcols in Hsp.
  destruct Hvc as (Hr & (Hc & _) & _).
  destruct (imageToCloud_built color_image position_image header _ _
              Hsc Hsp Hr Hc Hfit3)
    as (cloud & Hrun & _ & _ & _ & _ & Hlen & Hpts).
  exists cloud. split; [exact Hrun |]. split; [exact Hlen |].
  intros y x Hy Hx.
  pose proof (cell_index_bound _ _ y x Hy Hx) as Hk.
  destruct (Hpts (y * cv.cols color_image + x)) as (p & Hp & Hpix); [lia |].
  destruct Hpix as (px & py & pz & b & g & r &
                    Hpx & Hpy & Hpz & _ & _ & _ & ->).
  exists px, py, pz. eexists.
  split; [by apply (at_shaped _ (cv.rows color_image) (cv.cols color_image));
            try lia |].
  split; [by apply (at_shaped _ (cv.rows color_image) (cv.cols color_image));
            try lia |].
  split; [by apply (at_shaped _ (cv.rows color_image) (cv.cols color_image));
            try lia |].
  split; [exact Hp |]. auto.
Qed.

Lemma imageToCloud_body_error (color_image : cv.Mat uchar)
    (position_image : cv.Mat float64) (y x : Z) (cloud : pcl.PointCloud)
    (e : error) :
  imageToCloud_body color_image position_image y x cloud = Err e ->
  e = OutOfBounds.
Proof.
  unfold imageToCloud_body.
  destruct (cv.at_ position_image y (int_add (int_mul x 3) 0)) as [px |] eqn:H0;
    cbn [bind]; [| intros [= <-]; by apply at_error in H0].
  destruct (cv.at_ position_image y (int_add (int_mul x 3) 1)) as [py |] eqn:H1;
    cbn [bind]; [| intros [= <-]; by apply at_error in H1].
  destruct (cv.at_ position_image y (int_add (int_mul x 3) 2)) as [pz |] eqn:H2;
    cbn [bind]; [| intros [= <-]; by apply at_error in H2].
  destruct (cv.at_Vec3 color_image (cv.mkPoint x y)) as [color |] eqn:H3;
    cbn [bind]; [discriminate | intros [= <-]; by apply at_Vec3_error in H3].
Qed.

(** Pushing a pixel's point keeps every packed colour of the form
    [pack_rgb r g b]. *)
Lemma imageToCloud_body_packed (color_image : cv.Mat uchar)
    (position_image : cv.Mat float64) (y x : Z) (cloud cloud' : pcl.PointCloud) :
  Forall (fun p => exists r g b, pcl.rgb p = pack_rgb r g b) (pcl.points cloud) ->
  imageToCloud_body color_image position_image y x cloud = Ok cloud' ->
  Forall (fun p => exists r g b, pcl.rgb p = pack_rgb r g b) (pcl.points cloud').
Proof.
  intros Hpacked. unfold imageToCloud_body.
  destruct (cv.at_ position_image y (int_add (int_mul x 3) 0)) as [px |];
    cbn [bind]; [| discriminate].
  destruct (cv.at_ position_image y (int_add (int_mul x 3) 1)) as [py |];
    cbn [bind]; [| discriminate].
  destruct (cv.at_ position_image y (int_add (int_mul x 3) 2)) as [pz |];
    cbn [bind]; [| discriminate].
  destruct (cv.at_Vec3 color_image (cv.mkPoint x y)) as [color |]; cbn [bind];
    [| discriminate].
  intros [= <-]. unfold pcl.push_back. cbn [pcl.points].
  apply Forall_app. split; [exact Hpacked |].
  apply Forall_singleton. cbn [pcl.rgb]. eauto.
Qed.

(** X7. No cloud that [imageToCloud] returns has a point with a nonzero
    alpha byte: the packed colour of every point is below [2 ^ 24], its
    bits 24 to 31 are zero. *)
Theorem imageToCloud_alpha (color_image : cv.Mat uchar)
    (position_image : cv.Mat float64) (header : pcl.PCLHeader)
    (cloud : pcl.PointCloud) :
  imageToCloud color_image position_image header = Ok cloud ->
  forall p, p ∈ pcl.points cloud ->
    pcl.a p = x00 /\ 0 <= pcl.rgb p < 2 ^ 24.
Proof.
  unfold imageToCloud, assert.
  destruct (cv.rows color_image =? cv.rows position_image); cbn [bind];
    [| discriminate].
  destruct (cv.cols color_image =? cv.cols position_image); cbn [bind];
    [| discriminate].
  destruct (for_range _ _ _ _) as [built_cloud |] eqn:Hrun; cbn [bind];
    [| discriminate].
  intros [= <-]. cbn [pcl.points].
  assert (Forall (fun p => exists r g b, pcl.rgb p = pack_rgb r g b)
            (pcl.points built_cloud)) as Hpacked.
  { unfold for_range in Hrun.
    refine (for_from_preserves
              (fun c => Forall (fun p => exists r g b, pcl.rgb p = pack_rgb r g b)
                          (pcl.points c)) _ _ _ _ _ _ _ Hrun).
    - intros y t t' Ht Hrow. unfold for_range in Hrow.
      refine (for_from_preserves
                (fun c => Forall (fun p => exists r g b, pcl.rgb p = pack_rgb r g b)
                            (pcl.points c)) _ _ _ _ _ _ Ht Hrow).
      intros x u u' Hu Hbody.
      by apply (imageToCloud_body_packed _ _ _ _ _ _ Hu Hbody).
    - cbn. apply Forall_nil_2. }
  intros p Hp. rewrite Forall_forall in Hpacked.
  destruct (Hpacked p Hp) as (r & g & b & Hrgb).
  unfold pcl.a. rewrite Hrgb, pack_rgb_a. split; [reflexivity |].
  apply pack_rgb_range.
Qed.

(** X11. Matrices without cells give a cloud without points: when the two
    matrices have the same size and no row or no column, [imageToCloud]
    reads no pixel, whatever their channel counts and data are, and
    returns the empty cloud under the given header. *)
Theorem imageToCloud_no_cells (color_image : cv.Mat uchar)
    (position_image : cv.Mat float64) (header : pcl.PCLHeader) :
  cv.rows color_image = cv.rows position_image ->
  cv.cols color_image = cv.cols position_image ->
  cv.rows color_image <= 0 \/ cv.cols color_image <= 0 ->
  imageToCloud color_image position_image header =
    Ok {| pcl.header := header; pcl.points := [];
          pcl.width := uint32_of_int (cv.cols color_image);
          pcl.height := uint32_of_int (cv.rows color_image);
          pcl.is_dense := false |}.
Proof.
  intros Hrows Hcols Hnone. unfold imageToCloud.
  rewrite <- Hrows, <- Hcols, !Z.eqb_refl. cbn [assert bind].
  destruct Hnone as [Hr | Hc].
  - unfold for_range at 1.
    replace (Z.to_nat (cv.rows color_image - 0)) with 0%nat by lia.
    reflexivity.
  - unfold for_range at 1. rewrite for_from_skip; [reflexivity |].
    intros y t. unfold for_range.
    replace (Z.to_nat (cv.cols color_image - 0)) with 0%nat by lia.
    reflexivity.
Qed.

End ImageToCloudProperties.

Lemma at_row_overrun {T : Type} (m : cv.Mat T) (i0 i1 : Z) :
  cv.cols m * cv.channels m <= i1 -> cv.at_ m i0 i1 = Err OutOfBounds.
Proof.
  intros Hover. unfold cv.at_, cv.offset, assert.
  destruct ((0 <=? i0) && (i0 <? cv.rows m)); cbn [bind]; [| reflexivity].
  assert ((0 <=? i1 * 1) && (i1 * 1 <? cv.cols m * cv.channels m) = false) as ->.
  { apply andb_false_iff. right. apply Z.ltb_ge. lia. }
  reflexivity.
Qed.

Section ImageRoundTrip.

Context `{FloatOps}.

(** An iteration whose third scalar index is negative, as it is after the
    [int] has wrapped, or past the end of the row, fails. *)
Lemma imageToCloud_body_overrun (color_image : cv.Mat uchar)
    (position_image : cv.Mat float64) (y x : Z) (cloud : pcl.PointCloud) :
  int_add (int_mul x 3) 2 < 0 \/
  cv.cols position_image * cv.channels position_image <=
    int_add (int_mul x 3) 2 ->
  imageToCloud_body color_image position_image y x cloud = Err OutOfBounds.
Proof.
  intros Hover. unfold imageToCloud_body.
  destruct (cv.at_ position_image y (int_add (int_mul x 3) 0)) as [px |] eqn:H0;
    cbn [bind]; [| f_equal; by apply at_error in H0].
  destruct (cv.at_ position_image y (int_add (int_mul x 3) 1)) as [py |] eqn:H1;
    cbn [bind]; [| f_equal; by apply at_error in H1].
  destruct Hover as [Hneg | Hover];
    [by rewrite at_negative | by rewrite at_row_overrun].
Qed.

(** X13. The position matrix must have three channels: given a matrix of
    fewer channels (a one-channel depth image, say) of the same size as
    the colour matrix, with at least one pixel, [imageToCloud] passes both
    assertions and then reads past the end of a row of it. *)
Theorem imageToCloud_narrow_position (color_image : cv.Mat uchar)
    (position_image : cv.Mat float64) (header : pcl.PCLHeader) :
  cv.rows color_image = cv.rows position_image ->
  cv.cols color_image = cv.cols position_image ->
  0 < cv.rows color_image -> 0 < cv.cols color_image ->
  cv.channels position_image < 3 ->
  imageToCloud color_image position_image header = Err OutOfBounds.
Proof.
  intros Hrows Hcols Hr Hc Hcn. unfold imageToCloud.
  rewrite <- Hrows, <- Hcols, !Z.eqb_refl. cbn [assert bind].
  unfold for_range at 1.
  rewrite (for_from_some_fail _ OutOfBounds 0); [reflexivity | | | lia].
  - intros cloud. unfold for_range.
    destruct (Z_le_gt_dec (cv.cols color_image) 715827882) as [Hfit | Hwrap].
    + apply (for_from_some_fail _ OutOfBounds (cv.cols color_image - 1)).
      * intros cloud'. apply imageToCloud_body_overrun. right.
        rewrite int_index by (unfold INT_MAX; lia). rewrite <- Hcols. nia.
      * intros x t e'. apply imageToCloud_body_error.
      * lia.
    + apply (for_from_some_fail _ OutOfBounds 715827882).
      * intros cloud'. apply imageToCloud_body_overrun. left.
        rewrite int_index_wraps; lia.
      * intros x t e'. apply imageToCloud_body_error.
      * lia.
  - intros y t e'. unfold for_range. apply for_from_errors.
    intros x t' e''. apply imageToCloud_body_error.
Qed.

(** X17. Where the scalar index does not fit: for two matrices of the same
    size with a row and a last scalar index [3 * cols - 1] above
    [INT_MAX], the index [x * 3 + 2] leaves the range of [int] at column
    715827882 and the call has no result. *)
Theorem imageToCloud_index_overflow (color_image : cv.Mat uchar)
    (position_image : cv.Mat float64) (header : pcl.PCLHeader) :
  cv.rows color_image = cv.rows position_image ->
  cv.cols color_image = cv.cols position_image ->
  0 < cv.rows color_image ->
  INT_MAX < 3 * cv.cols color_image - 1 ->
  imageToCloud color_image position_image header = Err OutOfBounds.
Proof.
  intros Hrows Hcols Hr Hwide. unfold imageToCloud.
  rewrite <- Hrows, <- Hcols, !Z.eqb_refl. cbn [assert bind].
  unfold INT_MAX in Hwide. unfold for_range at 1.
  rewrite (for_from_some_fail _ OutOfBounds 0); [reflexivity | | | lia].
  - intros cloud. unfold for_range.
    apply (for_from_some_fail _ OutOfBounds 715827882).
    + intros cloud'. apply imageToCloud_body_overrun. left.
      rewrite int_index_wraps; lia.
    + intros x t e'. apply imageToCloud_body_error.
    + lia.
  - intros y t e'. unfold for_range. apply for_from_errors.
    intros x t' e''. apply imageToCloud_body_error.
Qed.

(** From matrices to a cloud and back, on three-channel matrices of [h]
    rows and [w] columns that are not a single pixel. *)
Lemma images_roundtrip (junk64 : nat -> float64) (junk8 : nat -> uchar)
    (color_image : cv.Mat uchar) (position_image : cv.Mat float64)
    (header : pcl.PCLHeader) (h w : Z) :
  shaped color_image h w -> shaped position_image h w ->
  0 <= h < INT_MAX -> 0 <= w < INT_MAX -> w <> 1 \/ h <> 1 ->
  w * h <= INT_MAX -> 3 * w <= INT_MAX ->
  exists cloud position_image' color_image',
    imageToCloud color_image position_image header = Ok cloud /\
    cloudToImage junk64 junk8 cloud = Ok (position_image', color_image') /\
    color_image' = color_image /\
    shaped position_image' h w /\
    (forall i v, cv.data position_image !! i = Some v ->
       cv.data position_image' !! i = Some (to_double (to_float v))) /\
    ((forall v, v ∈ cv.data position_image -> to_double (to_float v) = v) ->
     position_image' = position_image).
Proof.
  intros Hcol Hpos Hh Hw Hnd Hfit Hfit3.
  destruct (imageToCloud_built color_image position_image header h w Hcol Hpos)
    as (cloud & Hrun & Hcw & Hch & _ & _ & Hlen & Hpts); [lia | lia | lia |].
  assert (pcl.valid cloud) as Hvalid.
  { unfold pcl.valid, INT_MAX in *. rewrite Hcw, Hch. lia. }
  destruct (cloudToImage_filled junk64 junk8 cloud Hvalid)
    as ([pos' col'] & Hback & Hfilled);
    [rewrite Hcw, Hch; done | lia | lia | rewrite Hcw, Hch; lia
    | rewrite Hcw; lia |].
  rewrite Hcw, Hch in Hfilled.
  destruct Hfilled as (Hpos' & Hcol' & Hcells). cbn [fst snd] in *.
  exists cloud, pos', col'. split; [exact Hrun |]. split; [exact Hback |].
  assert (forall c, 0 <= c < h * w ->
            exists px py pz b g r,
              cv.data position_image !! Z.to_nat (c * 3 + 0) = Some px /\
              cv.data position_image !! Z.to_nat (c * 3 + 1) = Some py /\
              cv.data position_image !! Z.to_nat (c * 3 + 2) = Some pz /\
              cv.data color_image !! Z.to_nat (c * 3 + 0) = Some b /\
              cv.data color_image !! Z.to_nat (c * 3 + 1) = Some g /\
              cv.data color_image !! Z.to_nat (c * 3 + 2) = Some r /\
              cv.data pos' !! Z.to_nat (c * 3 + 0) = Some (to_double (to_float px)) /\
              cv.data pos' !! Z.to_nat (c * 3 + 1) = Some (to_double (to_float py)) /\
              cv.data pos' !! Z.to_nat (c * 3 + 2) = Some (to_double (to_float pz)) /\
              cv.data col' !! Z.to_nat (c * 3 + 0) = Some b /\
              cv.data col' !! Z.to_nat (c * 3 + 1) = Some g /\
              cv.data col' !! Z.to_nat (c * 3 + 2) = Some r) as Hboth.
  { intros c Hc. destruct (Hpts c Hc) as (p & Hp & Hpix).
    destruct Hpix as (px & py & pz & b & g & r &
                      Hpx & Hpy & Hpz & Hb & Hg & Hr & ->).
    destruct (Hcells c _ Hc Hp) as (A0 & A1 & A2 & B0 & B1 & B2).
    destruct (packed_point_bytes (to_float px) (to_float py) (to_float pz) r g b)
      as (Er & Eg & Eb & _).
    rewrite Er in B2. rewrite Eg in B1. rewrite Eb in B0.
    cbn [pcl.x pcl.y pcl.z] in A0, A1, A2.
    exists px, py, pz, b, g, r. auto 15. }
  pose proof Hcol as (Hcr & Hcc & Hcn & Hcl).
  pose proof Hcol' as (Hcr' & Hcc' & Hcn' & Hcl').
  pose proof Hpos as (Hpr & Hpc & Hpn & Hpl).
  pose proof Hpos' as (Hpr' & Hpc' & Hpn' & Hpl').
  split; [| split; [exact Hpos' | split]].
  - destruct col' as [r' c' n' d']. destruct color_image as [r0 c0 n0 d0].
    cbn [cv.rows cv.cols cv.channels cv.data] in *.
    rewrite Hcr', Hcc', Hcn', Hcr, Hcc, Hcn. f_equal.
    apply (cells_determine _ _ (h * w)); [lia | lia |].
    intros c k Hc Hk.
    destruct (Hboth c Hc) as (px & py & pz & b & g & r & _ & _ & _ &
                              C0 & C1 & C2 & _ & _ & _ & D0 & D1 & D2).
    assert (k = 0 \/ k = 1 \/ k = 2) as [-> | [-> | ->]] by lia; congruence.
  - intros i v Hv. pose proof (lookup_lt_Some _ _ _ Hv) as Hi.
    pose proof (Z.div_mod (Z.of_nat i) 3 ltac:(lia)) as Hdm.
    pose proof (Z.mod_pos_bound (Z.of_nat i) 3 ltac:(lia)) as Hk.
    assert (0 <= Z.of_nat i / 3 < h * w) as Hc.
    { split; [apply Z.div_pos; lia | apply Z.div_lt_upper_bound; lia]. }
    destruct (Hboth _ Hc) as (px & py & pz & b & g & r & P0 & P1 & P2 &
                              _ & _ & _ & Q0 & Q1 & Q2 & _).
    assert (Z.of_nat i mod 3 = 0 \/ Z.of_nat i mod 3 = 1 \/
            Z.of_nat i mod 3 = 2) as [Hm | [Hm | Hm]] by lia.
    + replace (Z.to_nat (Z.of_nat i / 3 * 3 + 0)) with i in P0, Q0 by lia.
      congruence.
    + replace (Z.to_nat (Z.of_nat i / 3 * 3 + 1)) with i in P1, Q1 by lia.
      congruence.
    + replace (Z.to_nat (Z.of_nat i / 3 * 3 + 2)) with i in P2, Q2 by lia.
      congruence.
  - intros Hexact.
    destruct pos' as [r' c' n' d']. destruct position_image as [r0 c0 n0 d0].
    cbn [cv.rows cv.cols cv.channels cv.data] in *.
    rewrite Hpr', Hpc', Hpn', Hpr, Hpc, Hpn. f_equal.
    apply (cells_determine _ _ (h * w)); [lia | lia |].
    intros c k Hc Hk.
    destruct (Hboth c Hc) as (px & py & pz & b & g & r & P0 & P1 & P2 &
                              _ & _ & _ & Q0 & Q1 & Q2 & _).
    pose proof (Hexact px (list_elem_of_lookup_2 _ _ _ P0)) as E0.
    pose proof (Hexact py (list_elem_of_lookup_2 _ _ _ P1)) as E1.
    pose proof (Hexact pz (list_elem_of_lookup_2 _ _ _ P2)) as E2.
    assert (k = 0 \/ k = 1 \/ k = 2) as [-> | [-> | ->]] by lia; congruence.
Qed.

(** X8. From matrices to a cloud and back: for two three-channel matrices
    of the same size, not a single pixel, with [rows * cols] and
    [3 * cols] within [INT_MAX] (so that no index of either conversion
    leaves the range of [int]), [imageToCloud] followed by [cloudToImage]
    gives back the colour matrix itself, and a position matrix of the same
    size whose scalars are the given ones cast to [float] and back; where
    that cast changes none of them it is the position matrix itself. *)
Theorem image_cloud_roundtrip (junk64 : nat -> float64) (junk8 : nat -> uchar)
    (color_image : cv.Mat uchar) (position_image : cv.Mat float64)
    (header : pcl.PCLHeader) :
  cv.valid color_image -> cv.valid position_image ->
  cv.channels color_image = 3 -> cv.channels position_image = 3 ->
  cv.rows color_image = cv.rows position_image ->
  cv.cols color_image = cv.cols position_image ->
  cv.cols color_image <> 1 \/ cv.rows color_image <> 1 ->
  cv.rows color_image < INT_MAX -> cv.cols color_image < INT_MAX ->
  cv.rows color_image * cv.cols color_image <= INT_MAX ->
  3 * cv.cols color_image <= INT_MAX ->
  exists cloud position_image' color_image',
    imageToCloud color_image position_image header = Ok cloud /\
    cloudToImage junk64 junk8 cloud = Ok (position_image', color_image') /\
    color_image' = color_image /\
    cv.rows position_image' = cv.rows position_image /\
    cv.cols position_image' = cv.cols position_image /\
    cv.channels position_image' = 3 /\
    (forall i v, cv.data position_image !! i = Some v ->
       cv.data position_image' !! i = Some (to_double (to_float v))) /\
    ((forall v, v ∈ cv.data position_image -> to_double (to_float v) = v) ->
     position_image' = position_image).
Proof.
  intros Hvc Hvp Hcc Hcp Hrows Hcols Hnd Hr Hc Hfit Hfit3.
  pose proof (valid_shaped _ Hvc Hcc) as Hsc.
  pose proof (valid_shaped _ Hvp Hcp) as Hsp.
  rewrite <- Hrows, <- Hcols in Hsp.
  destruct Hvc as ((Hr0 & _) & (Hc0 & _) & _).
  destruct (images_roundtrip junk64 junk8 color_image position_image header
              _ _ Hsc Hsp ltac:(lia) ltac:(lia) Hnd ltac:(lia) Hfit3)
    as (cloud & pos' & col' & Hrun & Hback & Hcol & Hpos' & Hcells & Hsame).
  exists cloud, pos', col'.
  destruct Hpos' as (Hpr & Hpc & Hpn & _).
  rewrite <- Hrows, <- Hcols. auto 10.
Qed.

(** X9. A single pixel does not come back: two three-channel matrices of
    one row and one column are converted to a cloud of one point, and
    [cloudToImage] stops at its first assertion on that cloud. *)
Theorem image_cloud_single_pixel (junk64 : nat -> float64) (junk8 : nat -> uchar)
    (color_image : cv.Mat uchar) (position_image : cv.Mat float64)
    (header : pcl.PCLHeader) :
  cv.valid color_image -> cv.valid position_image ->
  cv.channels color_image = 3 -> cv.channels position_image = 3 ->
  cv.rows color_image = 1 -> cv.cols color_image = 1 ->
  cv.rows position_image = 1 -> cv.cols position_image = 1 ->
  exists cloud,
    imageToCloud color_image position_image header = Ok cloud /\
    length (pcl.points cloud) = 1%nat /\
    cloudToImage junk64 junk8 cloud = Err DegenerateCloud.
Proof.
  intros Hvc Hvp Hcc Hcp Hr Hc Hr' Hc'.
  pose proof (valid_shaped _ Hvc Hcc) as Hsc.
  pose proof (valid_shaped _ Hvp Hcp) as Hsp.
  rewrite Hr, Hc in Hsc. rewrite Hr', Hc' in Hsp.
  destruct (imageToCloud_built color_image position_image header 1 1 Hsc Hsp)
    as (cloud & Hrun & Hcw & Hch & _ & _ & Hlen & _);
    [unfold INT_MAX; lia | lia | unfold INT_MAX; lia |].
  exists cloud. split; [exact Hrun |]. split; [lia |].
  by apply cloudToImage_single_point.
Qed.

(** X10. The matrices [cloudToImage] makes are kept by the way through a
    cloud: for an accepted cloud of [width * height] points, the indices
    of the loops fitting an [int], converting the two matrices with
    [imageToCloud] and the resulting cloud with [cloudToImage] again gives
    the same two matrices, the cast of a [float] to [double] and back
    being exact. *)
Theorem cloud_image_fixed_point (junk64 junk64' : nat -> float64)
    (junk8 junk8' : nat -> uchar) (cloud : pcl.PointCloud)
    (header : pcl.PCLHeader) :
  (forall f : float32, to_float (to_double f) = f) ->
  pcl.valid cloud ->
  pcl.width cloud <> 1 \/ pcl.height cloud <> 1 ->
  pcl.width cloud < INT_MAX -> pcl.height cloud < INT_MAX ->
  pcl.width cloud * pcl.height cloud <= INT_MAX ->
  3 * pcl.width cloud <= INT_MAX ->
  exists position_image color_image cloud',
    cloudToImage junk64 junk8 cloud = Ok (position_image, color_image) /\
    imageToCloud color_image position_image header = Ok cloud' /\
    cloudToImage junk64' junk8' cloud' = Ok (position_image, color_image).
Proof.
  intros Hexact Hvalid Hnd Hw Hh Hfit Hfit3.
  destruct (cloudToImage_filled junk64 junk8 cloud Hvalid Hnd Hw Hh Hfit Hfit3)
    as ([pos col] & Hrun & Hfilled).
  pose proof Hfilled as (Hpos & Hcol & Hcells). cbn [fst snd] in *.
  pose proof Hvalid as ((Hw0 & _) & (Hh0 & _) & Hlen).
  destruct (images_roundtrip junk64' junk8' col pos header _ _ Hcol Hpos
              ltac:(lia) ltac:(lia) Hnd Hfit Hfit3)
    as (cloud' & pos' & col' & Hto & Hback & -> & _ & _ & Hsame).
  exists pos, col, cloud'. split; [exact Hrun |]. split; [exact Hto |].
  rewrite Hback. do 2 f_equal. apply Hsame.
  intros v Hv. apply list_elem_of_lookup_1 in Hv as [i Hv].
  pose proof (lookup_lt_Some _ _ _ Hv) as Hi.
  destruct Hpos as (_ & _ & _ & Hpl).
  pose proof (Z.div_mod (Z.of_nat i) 3 ltac:(lia)) as Hdm.
  pose proof (Z.mod_pos_bound (Z.of_nat i) 3 ltac:(lia)) as Hk.
  assert (0 <= Z.of_nat i / 3 < pcl.height cloud * pcl.width cloud) as Hc.
  { split; [apply Z.div_pos; lia | apply Z.div_lt_upper_bound; lia]. }
  destruct (lookup_lt_is_Some_2 (pcl.points cloud) (Z.to_nat (Z.of_nat i / 3)))
    as [p Hp]; [lia |].
  destruct (Hcells _ p Hc Hp) as (A0 & A1 & A2 & _).
  assert (Z.of_nat i mod 3 = 0 \/ Z.of_nat i mod 3 = 1 \/
          Z.of_nat i mod 3 = 2) as [Hm | [Hm | Hm]] by lia.
  - replace (Z.to_nat (Z.of_nat i / 3 * 3 + 0)) with i in A0 by lia.
    rewrite Hv in A0. injection A0 as ->. by rewrite Hexact.
  - replace (Z.to_nat (Z.of_nat i / 3 * 3 + 1)) with i in A1 by lia.
    rewrite Hv in A1. injection A1 as ->. by rewrite Hexact.
  - replace (Z.to_nat (Z.of_nat i / 3 * 3 + 2)) with i in A2 by lia.
    rewrite Hv in A2. injection A2 as ->. by rewrite Hexact.
Qed.

End ImageRoundTrip.

(** ** applyMask after applyMask *)

(** X14. Two masks in a row are one mask: for matrices of the same size
    and channel count, masking the input with a first mask and the result
    with a second gives what masking the input once with the product of
    the two masks gives, where the product of the scalars is associative
    on the scalars met. *)
Theorem applyMask_twice {T : Type} (emul : T -> T -> T)
    (input_image mask1 mask2 : cv.Mat T) :
  cv.rows input_image = cv.rows mask1 -> cv.cols input_image = cv.cols mask1 ->
  cv.channels input_image = cv.channels mask1 ->
  cv.rows mask1 = cv.rows mask2 -> cv.cols mask1 = cv.cols mask2 ->
  cv.channels mask1 = cv.channels mask2 ->
  (forall i a b c,
     cv.data input_image !! i = Some a -> cv.data mask1 !! i = Some b ->
     cv.data mask2 !! i = Some c ->
     emul (emul a b) c = emul a (emul b c)) ->
  exists once masks twice,
    applyMask emul input_image mask1 = Ok (true, once) /\
    applyMask emul once mask2 = Ok (true, twice) /\
    applyMask emul mask1 mask2 = Ok (true, masks) /\
    applyMask emul input_image masks = Ok (true, twice).
Proof.
  intros Hr1 Hc1 Hn1 Hr2 Hc2 Hn2 Hassoc. unfold applyMask.
  rewrite (mul_same_shape emul input_image mask1) by assumption.
  rewrite (mul_same_shape emul mask1 mask2) by assumption.
  cbn [bind]. do 3 eexists. split; [reflexivity |].
  rewrite mul_same_shape by (cbn; congruence). cbn [bind].
  split; [reflexivity |]. split; [reflexivity |].
  rewrite mul_same_shape by (cbn; congruence). cbn [bind].
  cbn [cv.rows cv.cols cv.channels cv.data]. do 3 f_equal.
  apply list_eq. intros i. rewrite !lookup_zip_with.
  destruct (cv.data input_image !! i) as [a |] eqn:Ha; [| reflexivity].
  destruct (cv.data mask1 !! i) as [b |] eqn:Hb; [| reflexivity].
  destruct (cv.data mask2 !! i) as [c |] eqn:Hc; [| reflexivity].
  cbn. f_equal. symmetry. by apply (Hassoc i).
Qed.

(** ** The further properties at the sample inputs *)

Lemma type2str_MAKETYPE_witness :
  type2str (CV.CV_MAKETYPE CV.CV_32F 4) = "32FC4".
Proof.
  rewrite (type2str_MAKETYPE CV.CV_32F 4); [reflexivity | | ];
    unfold CV.CV_32F; lia.
Defined.

Lemma cloudToImage_overwrites_witness :
  cloudToImage Samples.junk64 Samples.junk8 Samples.cloud2x2 =
  cloudToImage (fun _ => S754_zero false) (fun _ => x00) Samples.cloud2x2.
Proof.
  apply (cloudToImage_overwrites Samples.junk64 (fun _ => S754_zero false)
           Samples.junk8 (fun _ => x00) Samples.cloud2x2).
  - solve_valid.
  - vm_compute. discriminate.
  - vm_compute. discriminate.
Defined.

Lemma cloudToImage_outcome_witness :
  cloudToImage Samples.junk64 Samples.junk8 Samples.cloud3x1 <>
    Err OutOfBounds.
Proof.
  apply (cloudToImage_outcome Samples.junk64 Samples.junk8 Samples.cloud3x1).
  - solve_valid.
  - vm_compute. discriminate.
  - vm_compute. discriminate.
Defined.

Lemma cloudToImage_short_points_witness :
  cloudToImage Samples.junk64 Samples.junk8 Samples.cloud2x2_short =
    Err OutOfBounds.
Proof.
  apply (cloudToImage_short_points Samples.junk64 Samples.junk8
           Samples.cloud2x2_short).
  - left. cbn. lia.
  - unfold INT_MAX. cbn. lia.
  - unfold INT_MAX. cbn. lia.
  - cbn. lia.
Defined.

Lemma cloudToImage_reads_witness :
  cloudToImage Samples.junk64 Samples.junk8 Samples.cloud2x2 =
  cloudToImage Samples.junk64 Samples.junk8 Samples.cloud2x2_plain.
Proof.
  apply (cloudToImage_reads Samples.junk64 Samples.junk8 Samples.cloud2x2
           Samples.cloud2x2_plain).
  - solve_valid.
  - solve_valid.
  - reflexivity.
  - reflexivity.
  - vm_compute. discriminate.
  - vm_compute. discriminate.
  - intros i p1 p2 H1 H2.
    do 4 (destruct i as [| i];
          [cbn in H1, H2; injection H1 as <-; injection H2 as <-;
           vm_compute; repeat split; reflexivity |]).
    cbn in H1. discriminate H1.
Defined.

Lemma imageToCloud_points_witness :
  exists cloud,
    imageToCloud Samples.color2x2 Samples.position2x2 Samples.header = Ok cloud /\
    Z.of_nat (length (pcl.points cloud)) = 4.
Proof.
  destruct (imageToCloud_points Samples.color2x2 Samples.position2x2
              Samples.header) as (cloud & Hrun & Hlen & _).
  - solve_valid.
  - solve_valid.
  - reflexivity.
  - reflexivity.
  - reflexivity.
  - reflexivity.
  - vm_compute. discriminate.
  - exists cloud. split; [exact Hrun | exact Hlen].
Defined.

Lemma imageToCloud_alpha_witness :
  exists cloud,
    imageToCloud Samples.color2x2 Samples.position2x2 Samples.header = Ok cloud /\
    forall p, p ∈ pcl.points cloud -> pcl.a p = x00 /\ 0 <= pcl.rgb p < 2 ^ 24.
Proof.
  eexists. split; [reflexivity |].
  apply (imageToCloud_alpha Samples.color2x2 Samples.position2x2
           Samples.header).
  reflexivity.
Defined.

Lemma imageToCloud_no_cells_witness :
  imageToCloud Samples.empty8 Samples.empty64 Samples.header =
    Ok {| pcl.header := Samples.header; pcl.points := [];
          pcl.width := 0; pcl.height := 0; pcl.is_dense := false |}.
Proof.
  apply (imageToCloud_no_cells Samples.empty8 Samples.empty64 Samples.header).
  - reflexivity.
  - reflexivity.
  - left. cbn. lia.
Defined.

Lemma imageToCloud_narrow_position_witness :
  imageToCloud Samples.color2x2 Samples.depth2x2 Samples.header =
    Err OutOfBounds.
Proof.
  apply imageToCloud_narrow_position.
  - reflexivity.
  - reflexivity.
  - cbn. lia.
  - cbn. lia.
  - cbn. lia.
Defined.

Lemma image_cloud_roundtrip_witness :
  exists cloud position_image' color_image',
    imageToCloud Samples.color2x2 Samples.position2x2 Samples.header = Ok cloud /\
    cloudToImage Samples.junk64 Samples.junk8 cloud =
      Ok (position_image', color_image') /\
    color_image' = Samples.color2x2.
Proof.
  destruct (image_cloud_roundtrip Samples.junk64 Samples.junk8
              Samples.color2x2 Samples.position2x2 Samples.header)
    as (cloud & pos' & col' & Hrun & Hback & Hcol & _).
  - solve_valid.
  - solve_valid.
  - reflexivity.
  - reflexivity.
  - reflexivity.
  - reflexivity.
  - left. cbn. lia.
  - vm_compute. reflexivity.
  - vm_compute. reflexivity.
  - vm_compute. discriminate.
  - vm_compute. discriminate.
  - exists cloud, pos', col'. auto.
Defined.

Lemma image_cloud_single_pixel_witness :
  exists cloud,
    imageToCloud Samples.color1x1 Samples.position1x1 Samples.header = Ok cloud /\
    cloudToImage Samples.junk64 Samples.junk8 cloud = Err DegenerateCloud.
Proof.
  destruct (image_cloud_single_pixel Samples.junk64 Samples.junk8
              Samples.color1x1 Samples.position1x1 Samples.header)
    as (cloud & Hrun & _ & Hback).
  - solve_valid.
  - solve_valid.
  - reflexivity.
  - reflexivity.
  - reflexivity.
  - reflexivity.
  - reflexivity.
  - reflexivity.
  - exists cloud. auto.
Defined.

Lemma cloud_image_fixed_point_witness :
  exists position_image color_image cloud',
    cloudToImage Samples.junk64 Samples.junk8 Samples.cloud2x2 =
      Ok (position_image, color_image) /\
    imageToCloud color_image position_image Samples.header = Ok cloud' /\
    cloudToImage (fun _ => S754_zero false) (fun _ => x00) cloud' =
      Ok (position_image, color_image).
Proof.
  apply (cloud_image_fixed_point Samples.junk64 (fun _ => S754_zero false)
           Samples.junk8 (fun _ => x00) Samples.cloud2x2 Samples.header).
  - exact IEEE_narrow_widen.
  - solve_valid.
  - left. cbn. lia.
  - vm_compute. reflexivity.
  - vm_compute. reflexivity.
  - vm_compute. discriminate.
  - vm_compute. discriminate.
Defined.

Lemma cloudToImage_index_overflow_witness :
  pcl.valid Samples.cloud65536 /\
  cloudToImage Samples.junk64 Samples.junk8 Samples.cloud65536 =
    Err OutOfBounds.
Proof.
  split.
  - unfold pcl.valid.
    cbn [Samples.cloud65536 pcl.width pcl.height pcl.points].
    rewrite length_replicate, Z2Nat.id; lia.
  - apply cloudToImage_index_overflow;
      cbn [Samples.cloud65536 pcl.width pcl.height]; unfold INT_MAX; lia.
Defined.

Lemma imageToCloud_index_overflow_witness :
  cv.valid Samples.color_wide /\ cv.valid Samples.position_wide /\
  imageToCloud Samples.color_wide Samples.position_wide Samples.header =
    Err OutOfBounds.
Proof.
  split; [| split].
  - unfold cv.valid.
    cbn [Samples.color_wide cv.rows cv.cols cv.channels cv.data].
    rewrite length_replicate, Z2Nat.id; unfold INT_MAX; lia.
  - unfold cv.valid.
    cbn [Samples.position_wide cv.rows cv.cols cv.channels cv.data].
    rewrite length_replicate, Z2Nat.id; unfold INT_MAX; lia.
  - apply imageToCloud_index_overflow;
      cbn [Samples.color_wide Samples.position_wide cv.rows cv.cols];
      unfold INT_MAX; lia.
Defined.

Lemma applyMask_twice_witness :
  exists once masks twice,
    applyMask mul8u Samples.gray2x3 Samples.ones2x3 = Ok (true, once) /\
    applyMask mul8u once Samples.zeros2x3 = Ok (true, twice) /\
    applyMask mul8u Samples.ones2x3 Samples.zeros2x3 = Ok (true, masks) /\
    applyMask mul8u Samples.gray2x3 masks = Ok (true, twice).
Proof.
  apply (applyMask_twice mul8u Samples.gray2x3 Samples.ones2x3 Samples.zeros2x3);
    try reflexivity.
  intros i a b c Ha Hb Hc.
  do 6 (destruct i as [| i];
        [cbn in Ha, Hb, Hc; injection Ha as <-; injection Hb as <-;
         injection Hc as <-; reflexivity |]).
  cbn in Ha. discriminate Ha.
Defined.

(** ** imageToCloud: when the shape assertion is the one that fails *)

(** X15. [imageToCloud] ends at a shape assertion exactly when the two
    matrices differ in their row count or in their column count, whatever
    else is wrong with them: with equal counts every failure is an access
    out of bounds. *)
Theorem imageToCloud_ShapeMismatch_iff `{FloatOps} (color_image : cv.Mat uchar)
    (position_image : cv.Mat float64) (header : pcl.PCLHeader) :
  imageToCloud color_image position_image header = Err ShapeMismatch <->
  cv.rows color_image <> cv.rows position_image \/
  cv.cols color_image <> cv.cols position_image.
Proof.
  unfold imageToCloud, assert.
  destruct (Z.eqb_spec (cv.rows color_image) (cv.rows position_image))
    as [Hr | Hr]; cbn [bind]; [| tauto].
  destruct (Z.eqb_spec (cv.cols color_image) (cv.cols position_image))
    as [Hc | Hc]; cbn [bind]; [| tauto].
  split; [| tauto]. intros Hrun. exfalso.
  destruct (for_range _ _ _ _) as [cloud | e] eqn:Hloop; cbn [bind] in Hrun;
    [discriminate Hrun |].
  injection Hrun as ->. unfold for_range in Hloop.
  assert (ShapeMismatch = OutOfBounds) as Habs; [| discriminate Habs].
  refine (for_from_errors _ OutOfBounds _ _ _ _ _ Hloop).
  intros y t e' Hrow. unfold for_range in Hrow.
  refine (for_from_errors _ OutOfBounds _ _ _ _ _ Hrow).
  intros x t' e''. apply imageToCloud_body_error.
Qed.
